(** * rocker's [ros_ws] extension: file selection and rosdep resolution

    A shallow embedding of [src/rocker/ros_ws.py]: the nested generator
    [get_files_from_path], the dictionary builder [generate_ws_files]
    (both local to [RosWs.get_files]) and the static method
    [RosWs.get_rosdeps], over an immutable snapshot of the file system. *)

From Stdlib Require Import Ascii String.
From stdpp Require Import gmap strings list sorting.

Set Warnings "-register-all".
Local Open Scope string_scope.
Local Open Scope list_scope.

(** ** Python strings and [posixpath] *)

Module Py.

(** [s.startswith(c)] for a one-character [c]. *)
Definition starts_with (c : ascii) (s : string) : bool :=
  match s with
  | String a _ => bool_decide (a = c)
  | EmptyString => false
  end.

(** [s.endswith(c)] for a one-character [c]. *)
Fixpoint ends_with (c : ascii) (s : string) : bool :=
  match s with
  | EmptyString => false
  | String a EmptyString => bool_decide (a = c)
  | String _ s' => ends_with c s'
  end.

(** [c in s] for a one-character [c]. *)
Fixpoint has_char (c : ascii) (s : string) : bool :=
  match s with
  | EmptyString => false
  | String a s' => bool_decide (a = c) || has_char c s'
  end.

(** [posixpath.join(a, b)]: an absolute [b] discards [a]; otherwise the
    separator is added unless [a] is empty or already ends with it. *)
Definition join (a b : string) : string :=
  if starts_with "/" b then b
  else if bool_decide (a = "") || ends_with "/" a then a +:+ b
  else a +:+ "/" +:+ b.

(** [posixpath.basename(p)]: [p[p.rfind('/') + 1:]]. *)
Fixpoint basename (p : string) : string :=
  match p with
  | EmptyString => EmptyString
  | String a p' =>
      if has_char "/" p' then basename p'
      else if bool_decide (a = "/"%char) then p' else p
  end.

(** [s.startswith(old)]. *)
Definition startswith (old s : string) : bool := String.prefix old s.

(** [str.replace(old, new)] for a non-empty [old]: every non-overlapping
    occurrence, scanning from the left.  [skip] counts the characters
    of an occurrence just replaced that are still to be passed over. *)
Fixpoint replace_from (old new : string) (skip : nat) (s : string) : string :=
  match s with
  | EmptyString => EmptyString
  | String a s' =>
      match skip with
      | S k => replace_from old new k s'
      | O =>
          if startswith old s
          then new +:+ replace_from old new (String.length old - 1) s'
          else String a (replace_from old new O s')
      end
  end.

(** [str.replace(old, new)]; with an empty [old] Python inserts [new]
    before every character and at the end. *)
Fixpoint interleave (new s : string) : string :=
  match s with
  | EmptyString => new
  | String a s' => new +:+ String a (interleave new s')
  end.

Definition replace (old new s : string) : string :=
  if bool_decide (old = "") then interleave new s
  else replace_from old new O s.

(** [str.isspace] on one character, for code points below 256. *)
Definition is_space (a : ascii) : bool :=
  let n := nat_of_ascii a in
  (((9 <=? n) && (n <=? 13)) || ((28 <=? n) && (n <=? 32))
   || (n =? 133) || (n =? 160))%nat.

Fixpoint lstrip (s : string) : string :=
  match s with
  | EmptyString => EmptyString
  | String a s' => if is_space a then lstrip s' else s
  end.

Fixpoint rstrip (s : string) : string :=
  match s with
  | EmptyString => EmptyString
  | String a s' =>
      match rstrip s' with
      | EmptyString => if is_space a then EmptyString else String a EmptyString
      | r => String a r
      end
  end.

(** [str.strip()]. *)
Definition strip (s : string) : string := rstrip (lstrip s).

(** [sorted(xs)] on strings: ascending code-point order. *)
Definition sorted (xs : list string) : list string :=
  merge_sort String.le xs.

End Py.

(** ** The file-system snapshot

    Both algorithms only query the file system ([os.path.isdir],
    [os.path.exists], [os.listdir], [os.walk], [os.path.islink],
    [os.readlink], [open], [ET.parse]); the snapshot records the answers.
    It is a finite tree: every directory can be listed, regular files
    are the only entries besides directories and links, and a link
    carries the tree it resolves to (no link cycles). *)

(** What [f.read()] returns: text, or bytes after a [UnicodeDecodeError]. *)
Inductive contents :=
| Text (s : string)
| Binary (bs : list Byte.byte).

(** An [xml.etree.ElementTree.Element]: tag, text and child elements. *)
Inductive element :=
| Element (tag : string) (text : option string) (children : list element).

Definition el_tag (e : element) : string := let 'Element t _ _ := e in t.
Definition el_text (e : element) : option string := let 'Element _ t _ := e in t.
Definition el_children (e : element) : list element := let 'Element _ _ c := e in c.

(** A regular file: [open] fails, or it yields [c]; [xml] is the root
    element [ET.parse] builds from the file, [None] when it raises
    [ET.ParseError]. *)
Inductive fdata :=
| Unreadable
| Readable (c : contents) (xml : option element).

(** A directory lists its entries in [os.listdir] order; a symbolic link
    records its [os.readlink] text and what it points at ([None] when
    dangling). *)
Inductive node :=
| File (d : fdata)
| Dir (entries : list (string * node))
| Link (target : string) (dest : option node).

(** Following symbolic links to the end, as [stat] does. *)
Fixpoint resolve (n : node) : option node :=
  match n with
  | Link _ (Some n') => resolve n'
  | Link _ None => None
  | _ => Some n
  end.

(** [os.path.isdir]. *)
Definition isdir (n : node) : bool :=
  match resolve n with Some (Dir _) => true | _ => false end.

(** [os.path.islink]. *)
Definition islink (n : node) : bool :=
  match n with Link _ _ => true | _ => false end.

(** The entry of a directory listing with the given name. *)
Fixpoint entry (name : string) (es : list (string * node)) : option node :=
  match es with
  | [] => None
  | (n, c) :: es' => if bool_decide (n = name) then Some c else entry name es'
  end.

(** [os.path.exists(os.path.join(path, name))] inside the directory
    listing [es]: false for a missing entry and for a dangling link. *)
Definition exists_in (name : string) (es : list (string * node)) : bool :=
  match entry name es with
  | Some c => bool_decide (is_Some (resolve c))
  | None => false
  end.

(** Exceptions that leave the modelled functions. *)
Inductive exn :=
| ValueError (msg : string)
| AttributeError
| OSError.

Inductive result (A : Type) :=
| Ok (a : A)
| Raise (e : exn).
Arguments Ok {A} a.
Arguments Raise {A} e.

(** ** [RosWs.get_files]: the tree walker *)

(** What a run of the generator does: it lists a directory, or yields a
    path.  A yielded path carries the node found there, which answers the
    later queries on that path. *)
Inductive event :=
| EvListdir (path : string)
| EvYield (path : string) (leaf : node).

(** The leaf branch of [get_files_from_path]. *)
Definition yield_leaf (path : string) (leaf : node)
    (only_ros_pacakges is_ros_package : bool) : list event :=
  (if negb only_ros_pacakges then [EvYield path leaf] else [])
  ++ (if only_ros_pacakges && is_ros_package then [EvYield path leaf] else []).

(** [get_files_from_path(path, only_ros_pacakges, is_ros_package)], where
    [orig] is the node at [path] and [n] what remains of it after
    following links ([os.path.isdir] follows them). *)
Fixpoint get_files_from_path_at (orig n : node) (path : string)
    (only_ros_pacakges is_ros_package : bool) : list event :=
  match n with
  | Dir es =>
      if bool_decide (Py.basename path = ".git") then []
      else
        let is_ros_package :=
          if negb is_ros_package then exists_in "package.xml" es
          else is_ros_package in
        EvListdir path ::
        flat_map (fun '(basename, c) =>
                    get_files_from_path_at c c (Py.join path basename)
                      only_ros_pacakges is_ros_package) es
  | Link _ (Some n') =>
      get_files_from_path_at orig n' path only_ros_pacakges is_ros_package
  | _ => yield_leaf path orig only_ros_pacakges is_ros_package
  end.

Definition get_files_from_path (n : node) (path : string)
    (only_ros_pacakges is_ros_package : bool) : list event :=
  get_files_from_path_at n n path only_ros_pacakges is_ros_package.

(** The paths the generator yields, in order. *)
Fixpoint yielded (evs : list event) : list (string * node) :=
  match evs with
  | [] => []
  | EvYield p leaf :: evs' => (p, leaf) :: yielded evs'
  | EvListdir _ :: evs' => yielded evs'
  end.

(** The directories the generator lists, in order. *)
Fixpoint listed (evs : list event) : list string :=
  match evs with
  | [] => []
  | EvListdir p :: evs' => p :: listed evs'
  | EvYield _ _ :: evs' => listed evs'
  end.

(** The dictionary key of a file:
    [filepath.replace(os.path.expanduser(dir), "ros_ws_src" + os.path.sep)];
    [dir] stands for the expanded path. *)
Definition virtual_path (dir filepath : string) : string :=
  Py.replace dir ("ros_ws_src" +:+ "/") filepath.

Definition symlink_warning (filepath target : string) : string :=
  "Warning: Could not copy symlink " +:+ filepath +:+ " -> " +:+ target.

(** The loop of [generate_ws_files] over the yielded paths: the
    dictionary so far, the lines printed so far. *)
Fixpoint ws_files_loop (dir : string) (ys : list (string * node))
    (ws_files : gmap string contents) (out : list string)
    : list string * result (gmap string contents) :=
  match ys with
  | [] => (out, Ok ws_files)
  | (filepath, leaf) :: ys' =>
      match leaf with
      | Link target _ =>
          ws_files_loop dir ys' ws_files
            (out ++ [symlink_warning filepath target])
      | File (Readable c _) =>
          ws_files_loop dir ys' (<[virtual_path dir filepath := c]> ws_files) out
      | File Unreadable | Dir _ => (out, Raise OSError)
      end
  end.

(** [generate_ws_files(dir, only_ros_pacakges)] on the snapshot [ws] of
    what lies at [dir]: printed lines and the returned dictionary. *)
Definition generate_ws_files (ws : node) (dir : string)
    (only_ros_pacakges : bool) : list string * result (gmap string contents) :=
  ws_files_loop dir
    (yielded (get_files_from_path ws dir only_ros_pacakges false)) ∅ [].

(** [RosWs.is_workspace_volume]. *)
Definition is_workspace_volume (ws : node) : bool := isdir ws.

(** [RosWs.get_files]. *)
Definition get_files (ws : node) (workspace : string)
    : list string * result (gmap string contents) :=
  if is_workspace_volume ws then generate_ws_files ws workspace true
  else ([], Raise (ValueError "Workspace file not currently supported")).

(** ** [RosWs.get_rosdeps]: the dependency resolver *)

(** [os.walk(top)] with its defaults: top-down, links to directories are
    listed among [dirs] but not entered; links to files and dangling
    links are listed among [files].  Each file keeps its node. *)
Definition walk_dirs (es : list (string * node)) : list string :=
  (filter (λ e, isdir e.2 = true) es).*1.

Definition walk_files (es : list (string * node)) : list (string * node) :=
  filter (λ e, isdir e.2 = false) es.

Fixpoint os_walk (n : node) (top : string)
    : list (string * list string * list (string * node)) :=
  match n with
  | Dir es =>
      (top, walk_dirs es, walk_files es) ::
      flat_map (fun '(name, c) =>
                  match c with
                  | Dir _ => os_walk c (Py.join top name)
                  | _ => []
                  end) es
  | _ => []
  end.

(** The first loop of [get_rosdeps]: the paths of the manifests, each
    with the node found there. *)
Fixpoint package_xmls_of
    (walk : list (string * list string * list (string * node)))
    : list (string * node) :=
  match walk with
  | [] => []
  | (root, _, files) :: walk' =>
      match entry "package.xml" files with
      | Some f => (Py.join root "package.xml", f) :: package_xmls_of walk'
      | None => package_xmls_of walk'
      end
  end.

(** [ET.parse(path).getroot()]. *)
Inductive parsed :=
| ParseError
| IOError
| Parsed (root : element).

Definition ET_parse (n : node) : parsed :=
  match resolve n with
  | Some (File (Readable _ (Some root))) => Parsed root
  | Some (File (Readable _ None)) => ParseError
  | _ => IOError
  end.

(** [root.find(tag)]: the first child with that tag. *)
Definition find (tag : string) (root : element) : option element :=
  List.find (λ c, bool_decide (el_tag c = tag)) (el_children root).

(** [root.findall(tag)]: the children with that tag, in document order. *)
Definition findall (tag : string) (root : element) : list element :=
  filter (λ c, el_tag c = tag) (el_children root).

Definition depend_tags : list string :=
  ["depend"; "build_depend"; "run_depend"; "exec_depend"; "test_depend"].

(** The body of [for dep in root.findall(tag)]. *)
Definition add_dep (deps : gset string) (dep : element) : gset string :=
  match el_text dep with
  | Some t => if bool_decide (t = "") then deps else {[Py.strip t]} ∪ deps
  | None => deps
  end.

(** The loop [for tag in depend_tags]. *)
Definition add_deps (root : element) (deps : gset string) : gset string :=
  foldl (λ deps tag, foldl add_dep deps (findall tag root)) deps depend_tags.

Definition parse_warning (package_xml : string) : string :=
  "Warning: Could not parse " +:+ package_xml.

(** The second loop of [get_rosdeps]: [deps], [src_packages] and the
    lines printed so far.  Only [ET.ParseError] is caught. *)
Fixpoint parse_loop (xmls : list (string * node))
    (deps src_packages : gset string) (out : list string)
    : list string * result (gset string * gset string) :=
  match xmls with
  | [] => (out, Ok (deps, src_packages))
  | (package_xml, f) :: xmls' =>
      match ET_parse f with
      | ParseError =>
          parse_loop xmls' deps src_packages (out ++ [parse_warning package_xml])
      | IOError => (out, Raise OSError)
      | Parsed root =>
          match find "name" root with
          | None => (out, Raise AttributeError)
          | Some name =>
              match el_text name with
              | None => (out, Raise AttributeError)
              | Some t =>
                  parse_loop xmls' (add_deps root deps)
                    ({[Py.strip t]} ∪ src_packages) out
              end
          end
      end
  end.

(** The manifests [get_rosdeps] collects below the workspace. *)
Definition package_xmls (ws : node) (workspace : string) : list (string * node) :=
  match resolve ws with
  | Some (Dir es) => package_xmls_of (os_walk (Dir es) workspace)
  | _ => []
  end.

(** [RosWs.get_rosdeps(workspace)] on the snapshot [ws] of what lies at
    [workspace]: printed lines and the returned list. *)
Definition get_rosdeps (ws : node) (workspace : string)
    : list string * result (list string) :=
  if is_workspace_volume ws then
    match parse_loop (package_xmls ws workspace) ∅ ∅ [] with
    | (out, Ok (deps, src_packages)) =>
        (out, Ok (Py.sorted (elements (deps ∖ src_packages))))
    | (out, Raise e) => (out, Raise e)
    end
  else ([], Raise (ValueError "Workspace file not currently supported")).

(** ** Example snapshots *)

Definition manifest (name : string) (deps : list (string * string)) : node :=
  File (Readable (Text "")
          (Some (Element "package" None
                   (Element "name" (Some name) []
                    :: map (λ d, Element d.1 (Some d.2) []) deps)))).

(** [pkg_a] depends on [pkg_b] and [libfoo]; [pkg_b] on [libbar]. *)
Definition two_packages : node :=
  Dir [("pkg_a", Dir [("package.xml",
                       manifest "pkg_a" [("depend", "pkg_b"); ("build_depend", "libfoo")]);
                      ("main.cpp", File (Readable (Text "int main;") None))]);
       ("pkg_b", Dir [("package.xml", manifest "pkg_b" [("exec_depend", " libbar ")])])].

(** [s[n:]]. *)
Fixpoint slice_from (n : nat) (s : string) : string :=
  match n, s with
  | S k, String _ s' => slice_from k s'
  | _, _ => s
  end.

(** The key the specification describes: only the leading occurrence of
    the root is replaced, the rest of the path is kept. *)
Definition leading_replaced (dir filepath : string) : string :=
  if Py.startswith dir filepath
  then ("ros_ws_src" +:+ "/") +:+ slice_from (String.length dir) filepath
  else filepath.

Definition source (text : string) : node := File (Readable (Text text) None).

(** A package with a directory named like the workspace root. *)
Definition inner_root : node :=
  Dir [("pkg", Dir [("package.xml", manifest "pkg" []);
                    ("ws", Dir [("f.txt", source "data")])])].

(** Below the root [/w]: a file [wx] in [d], a file [x] in [dros_ws_src]. *)
Definition colliding : node :=
  Dir [("package.xml", manifest "pkg" []);
       ("d", Dir [("wx", source "first")]);
       ("dros_ws_src", Dir [("x", source "second")])].

(** A package with version-control metadata. *)
Definition git_in_package : node :=
  Dir [("package.xml", manifest "pkg" []);
       (".git", Dir [("config", source "[core]")]);
       ("main.cpp", source "int main;")].

(** A package with a link to a directory outside the workspace. *)
Definition linked_data : node :=
  Dir [("package.xml", manifest "pkg" []);
       ("data", Link "/mnt/data" (Some (Dir [("big.bin", source "0101")])))].

(** A workspace without packages that holds a link to a file. *)
Definition stray_link : node :=
  Dir [("notes", Link "/tmp/notes.txt" (Some (source "todo")))].

(** A package with a link to a file. *)
Definition linked_file : node :=
  Dir [("package.xml", manifest "pkg" []);
       ("notes", Link "/tmp/notes.txt" (Some (source "todo")));
       ("main.cpp", source "int main;")].

(** A directory whose entry [package.xml] is itself a directory. *)
Definition dir_manifest : node :=
  Dir [("pkg", Dir [("package.xml", Dir []);
                    ("main.cpp", source "int main;")])].

(** ** Manifests of a workspace, in the words of the specification *)

(** The listing of the directory reached from [n] through the names
    [ns], passing through directories only. *)
Fixpoint subdir (n : node) (ns : list string) : option (list (string * node)) :=
  match n, ns with
  | Dir es, [] => Some es
  | Dir es, x :: ns' =>
      match entry x es with
      | Some c => subdir c ns'
      | None => None
      end
  | _, _ => None
  end.

(** [f] is a manifest of the workspace: a non-directory entry named
    [package.xml] of a directory of the tree. *)
Definition manifest_in (ws f : node) : Prop :=
  ∃ top ns es, resolve ws = Some top ∧ subdir top ns = Some es
               ∧ entry "package.xml" es = Some f ∧ isdir f = false.

(** [root] is the root element of a manifest that parses. *)
Definition parsed_manifest (ws : node) (root : element) : Prop :=
  ∃ f, manifest_in ws f ∧ ET_parse f = Parsed root.

(** [root] declares the dependency [x]: the trimmed text of a child with
    one of the five dependency tags, whose text is present and not empty. *)
Definition declares_dep (root : element) (x : string) : Prop :=
  ∃ dep t, dep ∈ el_children root ∧ el_tag dep ∈ depend_tags
           ∧ el_text dep = Some t ∧ t ≠ "" ∧ x = Py.strip t.

(** [root] declares the package name [x]: the trimmed text of its first
    [name] child. *)
Definition declares_name (root : element) (x : string) : Prop :=
  ∃ name t, find "name" root = Some name ∧ el_text name = Some t
            ∧ x = Py.strip t.

Definition declared_dependency (ws : node) (x : string) : Prop :=
  ∃ root, parsed_manifest ws root ∧ declares_dep root x.

Definition local_package (ws : node) (x : string) : Prop :=
  ∃ root, parsed_manifest ws root ∧ declares_name root x.

(** The loop body of [get_rosdeps] raises nothing on the manifest [f]:
    it is malformed XML, or it parses and its first [name] child has
    text. *)
Definition processable (f : node) : bool :=
  match ET_parse f with
  | ParseError => true
  | IOError => false
  | Parsed root =>
      match find "name" root with
      | Some name => bool_decide (is_Some (el_text name))
      | None => false
      end
  end.

(** A valid package beside one whose manifest has no [name] element. *)
Definition nameless_root : element :=
  Element "package" None [Element "depend" (Some "libbar") []].

Definition nameless_manifest : node :=
  File (Readable (Text "") (Some nameless_root)).

Definition nameless_sibling : node :=
  Dir [("pkg_ok", Dir [("package.xml", manifest "pkg_ok" [("depend", "libfoo")])]);
       ("pkg_bad", Dir [("package.xml", nameless_manifest)])].

(** A package with a dependency element that holds only blanks. *)
Definition blank_dependency : node :=
  Dir [("pkg", Dir [("package.xml", manifest "pkg" [("depend", "   ")])])].

(** A valid package beside one whose manifest is not XML. *)
Definition malformed_sibling : node :=
  Dir [("pkg_bad", Dir [("package.xml", File (Readable (Text "<package") None))]);
       ("pkg_ok", Dir [("package.xml", manifest "pkg_ok" [("depend", "libfoo")])])].

(** [ET.parse] raises [ET.ParseError] on [f]. *)
Definition malformed (f : node) : bool :=
  match ET_parse f with ParseError => true | _ => false end.

(** The same snapshot with every malformed [package.xml] removed. *)
Fixpoint prune_entries (prune : node → node) (es : list (string * node))
    : list (string * node) :=
  match es with
  | [] => []
  | (x, c) :: es' =>
      if bool_decide (x = "package.xml") && malformed c
      then prune_entries prune es'
      else (x, prune c) :: prune_entries prune es'
  end.

Fixpoint without_malformed (n : node) : node :=
  match n with
  | Dir es => Dir (prune_entries without_malformed es)
  | Link t (Some n') => Link t (Some (without_malformed n'))
  | _ => n
  end.

(** The sub-walks [os.walk] makes below [top]. *)
Definition sub_walks (top : string) (es : list (string * node))
    : list (string * list string * list (string * node)) :=
  flat_map (fun '(name, c) =>
              match c with
              | Dir _ => os_walk c (Py.join top name)
              | _ => []
              end) es.

(** ** Positions in a snapshot *)

(** A name [os.listdir] can return: not empty, no separator. *)
Definition valid_name (s : string) : bool :=
  negb (bool_decide (s = "")) && negb (Py.has_char "/" s).

(** Listings hold valid names, each once. *)
Fixpoint wf_node (n : node) : bool :=
  match n with
  | File _ => true
  | Dir es =>
      bool_decide (NoDup es.*1) && forallb valid_name es.*1
      && forallb (fun '(_, c) => wf_node c) es
  | Link _ (Some n') => wf_node n'
  | Link _ None => true
  end.

(** The node reached from [n] through the names [ns], following links
    the way path resolution does. *)
Fixpoint descend (n : node) (ns : list string) : option node :=
  match ns with
  | [] => Some n
  | x :: ns' =>
      match resolve n with
      | Some (Dir es) =>
          match entry x es with
          | Some c => descend c ns'
          | None => None
          end
      | _ => None
      end
  end.

(** The path string of the position [ns] below [dir]. *)
Definition path_of (dir : string) (ns : list string) : string :=
  foldl Py.join dir ns.

(** Some directory on the way from [n] to the position [ns] (that
    position excluded) holds an existing entry named [package.xml]. *)
Fixpoint in_package (n : node) (ns : list string) : bool :=
  match ns with
  | [] => false
  | x :: ns' =>
      match resolve n with
      | Some (Dir es) =>
          exists_in "package.xml" es
          || match entry x es with
             | Some c => in_package c ns'
             | None => false
             end
      | _ => false
      end
  end.

(** Some directory strictly between the root and the position [ns] is
    named [.git]. *)
Definition below_git (ns : list string) : bool :=
  bool_decide (".git" ∈ removelast ns).

(** The separator [posixpath.join] puts after [a]. *)
Definition sep_after (a : string) : string :=
  if bool_decide (a = "") || Py.ends_with "/" a then "" else "/".

(** Below the first name every further name adds a separator. *)
Fixpoint tail_str (ns : list string) : string :=
  match ns with
  | [] => ""
  | x :: ns' => "/" +:+ x +:+ tail_str ns'
  end.

(** The directory branch of [get_files_from_path] on the listing [es]. *)
Definition walk_dir (es : list (string * node)) (path : string)
    (only_ros_pacakges is_ros_package : bool) : list event :=
  if bool_decide (Py.basename path = ".git") then []
  else
    let is_ros_package :=
      if negb is_ros_package then exists_in "package.xml" es
      else is_ros_package in
    EvListdir path ::
    flat_map (fun '(basename, c) =>
                get_files_from_path c (Py.join path basename)
                  only_ros_pacakges is_ros_package) es.

(** No directory passed on the way from [path] down the names [ns] has
    the base name [.git]. *)
Fixpoint git_free (path : string) (ns : list string) : bool :=
  match ns with
  | [] => true
  | x :: ns' =>
      negb (bool_decide (Py.basename path = ".git"))
      && git_free (Py.join path x) ns'
  end.

(** What the generator asks of a position [ns] below [n] before it
    yields the path there: listed names, no [.git] directory on the way,
    and in packages-only mode a package flag set on the way. *)
Definition selected (n : node) (path : string) (only pk : bool)
    (ns : list string) : Prop :=
  Forall (λ x, valid_name x = true) ns
  ∧ git_free path ns = true
  ∧ (only = true → pk || in_package n ns = true).

(** [os.readlink]. *)
Definition readlink (n : node) : string :=
  match n with Link target _ => target | _ => "" end.

(** The yielded paths that are symbolic links, and the others. *)
Definition links (ys : list (string * node)) : list (string * node) :=
  filter (λ y, islink y.2 = true) ys.

Definition nonlinks (ys : list (string * node)) : list (string * node) :=
  filter (λ y, islink y.2 = false) ys.

(** [open(filepath).read()] succeeds. *)
Definition readable (n : node) : bool :=
  match n with File (Readable _ _) => true | _ => false end.

(** ** Further definitions *)

(** [old in s]: [old] occurs somewhere in [s]. *)
Fixpoint occurs (old s : string) : bool :=
  Py.startswith old s
  || match s with
     | EmptyString => false
     | String _ s' => occurs old s'
     end.

(** The key under which a yielded path is stored. *)
Definition key_of (dir : string) (y : string * node) : string :=
  virtual_path dir y.1.

(** [RosWs.get_home_dir(cliargs)] when [cliargs] holds the key [user]:
    [user] is the truth value of [cliargs["user"]], [user_name] what
    [rocker.core.get_user_name()] returns. *)
Definition get_home_dir (user : bool) (user_name : string) : string :=
  if user then Py.join (Py.join "/" "home") user_name
  else Py.join "/" "root".

(** Induction on snapshots, through listings and link destinations. *)
Section node_induction.
Variable P : node → Prop.
Hypothesis Hfile : ∀ d, P (File d).
Hypothesis Hdir : ∀ es, Forall (λ e, P e.2) es → P (Dir es).
Hypothesis Hdangling : ∀ t, P (Link t None).
Hypothesis Hlink : ∀ t n, P n → P (Link t (Some n)).

Fixpoint node_ind' (n : node) : P n :=
  match n with
  | File d => Hfile d
  | Dir es =>
      Hdir es
        ((fix go (es : list (string * node)) : Forall (λ e, P e.2) es :=
            match es with
            | [] => @List.Forall_nil _ (λ e, P e.2)
            | (x, c) :: es' =>
                @List.Forall_cons _ (λ e, P e.2) (x, c) es' (node_ind' c) (go es')
            end) es)
  | Link t None => Hdangling t
  | Link t (Some n') => Hlink t n' (node_ind' n')
  end.
End node_induction.

(** * Properties *)

(** ** The string functions on examples *)

Example join_plain : Py.join "/ws" "pkg" = "/ws/pkg".
Proof. reflexivity. Qed.

Example join_trailing_sep : Py.join "/ws/" "pkg" = "/ws/pkg".
Proof. reflexivity. Qed.

Example basename_last : Py.basename "/ws/pkg/.git" = ".git".
Proof. reflexivity. Qed.

Example basename_trailing_sep : Py.basename "/ws/.git/" = "".
Proof. reflexivity. Qed.

Example replace_every : Py.replace "ab" "X" "abcabab" = "XcXX".
Proof. reflexivity. Qed.

Example replace_no_overlap : Py.replace "aa" "X" "aaa" = "Xa".
Proof. reflexivity. Qed.

Example strip_both_ends : Py.strip "  a b  " = "a b".
Proof. reflexivity. Qed.

Example sorted_code_points :
  Py.sorted ["libfoo"; "Zlib"; "libbar"] = ["Zlib"; "libbar"; "libfoo"].
Proof. vm_compute. reflexivity. Qed.

(** ** Strings and paths *)

Section path_lemmas.

Lemma app_nil_l_str (a : string) : "" +:+ a = a.
Proof. reflexivity. Qed.

Lemma app_cons_str x (a b : string) : String x a +:+ b = String x (a +:+ b).
Proof. reflexivity. Qed.

Lemma app_assoc_str (a b c : string) : (a +:+ b) +:+ c = a +:+ b +:+ c.
Proof.
  induction a as [|x a IH]; [done|]. by rewrite !app_cons_str, IH.
Qed.

Lemma app_nil_r_str (a : string) : a +:+ "" = a.
Proof.
  induction a as [|x a IH]; [done|]. by rewrite app_cons_str, IH.
Qed.

Lemma has_char_app c a b :
  Py.has_char c (a +:+ b) = Py.has_char c a || Py.has_char c b.
Proof.
  induction a as [|x a IH]; [done|].
  rewrite app_cons_str. simpl. by rewrite IH, orb_assoc.
Qed.

Lemma basename_no_sep n : Py.has_char "/" n = false → Py.basename n = n.
Proof.
  destruct n as [|x n]; simpl; [done|].
  intros [Hx Hn]%orb_false_iff. by rewrite Hn, Hx.
Qed.

Lemma basename_app_sep a n :
  Py.has_char "/" n = false → Py.basename (a +:+ "/" +:+ n) = n.
Proof.
  intros Hn. induction a as [|x a IH].
  - rewrite app_nil_l_str, app_cons_str, app_nil_l_str. simpl. by rewrite Hn.
  - rewrite app_cons_str. simpl. rewrite has_char_app, app_cons_str.
    simpl. by rewrite orb_true_r.
Qed.

Lemma ends_with_split c a :
  Py.ends_with c a = true → ∃ a', a = a' +:+ String c "".
Proof.
  induction a as [|x a IH]; [done|].
  destruct a as [|y a].
  - simpl. intros ->%bool_decide_eq_true. by exists "".
  - intros H. destruct (IH H) as [a' Ha']. exists (String x a').
    by rewrite app_cons_str, <-Ha'.
Qed.

Lemma valid_name_spec n :
  valid_name n = true ↔ n ≠ "" ∧ Py.has_char "/" n = false.
Proof.
  unfold valid_name. rewrite andb_true_iff, !negb_true_iff, bool_decide_eq_false.
  done.
Qed.

Lemma valid_not_absolute n : valid_name n = true → Py.starts_with "/" n = false.
Proof.
  intros [_ H]%valid_name_spec. destruct n as [|x n]; [done|].
  simpl in *. by apply orb_false_iff in H as [-> _].
Qed.

Lemma join_valid a n :
  valid_name n = true → Py.join a n = a +:+ sep_after a +:+ n.
Proof.
  intros Hn. unfold Py.join, sep_after. rewrite (valid_not_absolute n Hn).
  by destruct (bool_decide (a = "") || Py.ends_with "/" a).
Qed.

Lemma basename_join a n : valid_name n = true → Py.basename (Py.join a n) = n.
Proof.
  intros Hn. rewrite (join_valid a n Hn).
  apply valid_name_spec in Hn as [_ Hn]. unfold sep_after.
  destruct (bool_decide (a = "")) eqn:Ha; simpl.
  - apply bool_decide_eq_true in Ha as ->. by apply basename_no_sep.
  - destruct (Py.ends_with "/" a) eqn:He.
    + apply ends_with_split in He as [a' ->].
      rewrite app_nil_l_str, app_assoc_str. by apply basename_app_sep.
    + by apply basename_app_sep.
Qed.

Lemma ends_with_app c a n :
  n ≠ "" → Py.ends_with c (a +:+ n) = Py.ends_with c n.
Proof.
  intros Hn. induction a as [|x a IH]; [done|].
  rewrite app_cons_str.
  destruct (a +:+ n) as [|y r] eqn:E.
  - destruct a; [by rewrite app_nil_l_str in E|done].
  - simpl in *. done.
Qed.

Lemma no_char_ends_with c n : Py.has_char c n = false → Py.ends_with c n = false.
Proof.
  induction n as [|x n IH]; [done|]. simpl.
  intros [Hx Hn]%orb_false_iff. destruct n; [done|by apply IH].
Qed.

Lemma sep_after_valid a n : valid_name n = true → sep_after (a +:+ n) = "/".
Proof.
  intros [Hne Hn]%valid_name_spec. unfold sep_after.
  rewrite (ends_with_app _ _ _ Hne), (no_char_ends_with _ _ Hn).
  rewrite bool_decide_eq_false_2; [done|].
  destruct a; [by rewrite app_nil_l_str|done].
Qed.

Lemma path_of_tail p x ns :
  valid_name x = true → Forall (λ n, valid_name n = true) ns →
  path_of (p +:+ x) ns = p +:+ x +:+ tail_str ns.
Proof.
  intros Hx Hns. revert p x Hx. unfold path_of.
  induction Hns as [|y ns Hy _ IH]; intros p x Hx; simpl.
  - by rewrite app_nil_r_str.
  - rewrite (join_valid _ y Hy), (sep_after_valid p x Hx).
    rewrite <-!app_assoc_str. rewrite (IH _ y Hy).
    by rewrite !app_assoc_str.
Qed.

Lemma path_of_cons dir x ns :
  valid_name x = true → Forall (λ n, valid_name n = true) ns →
  path_of dir (x :: ns) = dir +:+ sep_after dir +:+ x +:+ tail_str ns.
Proof.
  intros Hx Hns. unfold path_of. simpl. rewrite (join_valid _ x Hx).
  rewrite <-app_assoc_str. fold (path_of ((dir +:+ sep_after dir) +:+ x) ns).
  rewrite (path_of_tail _ x ns Hx Hns). by rewrite !app_assoc_str.
Qed.

Lemma name_tail_inj n n' t t' :
  Py.has_char "/" n = false → Py.has_char "/" n' = false →
  (t = "" ∨ Py.starts_with "/" t = true) →
  (t' = "" ∨ Py.starts_with "/" t' = true) →
  n +:+ t = n' +:+ t' → n = n' ∧ t = t'.
Proof.
  revert n'. induction n as [|x n IH]; intros [|y n'] Hn Hn' Ht Ht'.
  - by rewrite !app_nil_l_str.
  - rewrite app_nil_l_str, app_cons_str. intros ->.
    simpl in Hn'. apply orb_false_iff in Hn' as [Hy _].
    destruct Ht as [?|Ht]; [done|]. simpl in Ht. congruence.
  - rewrite app_nil_l_str, app_cons_str. intros <-.
    simpl in Hn. apply orb_false_iff in Hn as [Hx _].
    destruct Ht' as [?|Ht']; [done|]. simpl in Ht'. congruence.
  - rewrite !app_cons_str. intros [= -> E].
    simpl in Hn, Hn'. apply orb_false_iff in Hn as [_ Hn].
    apply orb_false_iff in Hn' as [_ Hn'].
    destruct (IH n' Hn Hn' Ht Ht' E) as [-> ->]. done.
Qed.

Lemma tail_str_headed ns :
  tail_str ns = "" ∨ Py.starts_with "/" (tail_str ns) = true.
Proof. destruct ns; [by left|by right]. Qed.

Lemma tail_str_inj ns ns' :
  Forall (λ n, valid_name n = true) ns →
  Forall (λ n, valid_name n = true) ns' →
  tail_str ns = tail_str ns' → ns = ns'.
Proof.
  intros Hns. revert ns'.
  induction Hns as [|x ns Hx _ IH]; intros [|y ns'] Hns'; simpl; try done.
  apply Forall_cons in Hns' as [Hy Hns'].
  rewrite !app_cons_str, !app_nil_l_str. intros [= E].
  apply valid_name_spec in Hx as [_ Hx]. apply valid_name_spec in Hy as [_ Hy].
  destruct (name_tail_inj x y _ _ Hx Hy (tail_str_headed ns)
              (tail_str_headed ns') E) as [-> E'].
  by rewrite (IH ns' Hns' E').
Qed.

Lemma path_of_inj dir ns ns' :
  Forall (λ n, valid_name n = true) ns →
  Forall (λ n, valid_name n = true) ns' →
  path_of dir ns = path_of dir ns' → ns = ns'.
Proof.
  assert (Hnil : ∀ x ms, valid_name x = true →
            Forall (λ n, valid_name n = true) ms →
            path_of dir (x :: ms) ≠ dir).
  { intros x ms Hx Hms E. rewrite (path_of_cons dir x ms Hx Hms) in E.
    assert (E' : dir +:+ sep_after dir +:+ x +:+ tail_str ms = dir +:+ "")
      by (by rewrite app_nil_r_str).
    clear E. apply String.app_inj in E' as E. apply valid_name_spec in Hx as [Hx _].
    destruct (sep_after dir); [|done]. rewrite app_nil_l_str in E.
    destruct x; done. }
  intros Hns Hns'. destruct Hns as [|x ns Hx Hns], Hns' as [|y ns' Hy Hns'].
  - done.
  - intros E. symmetry in E. by apply Hnil in E.
  - intros E. by apply Hnil in E.
  - rewrite (path_of_cons dir x ns Hx Hns), (path_of_cons dir y ns' Hy Hns').
    intros E. do 2 apply String.app_inj in E.
    apply valid_name_spec in Hx as [_ Hx]. apply valid_name_spec in Hy as [_ Hy].
    destruct (name_tail_inj x y _ _ Hx Hy (tail_str_headed ns)
                (tail_str_headed ns') E) as [-> E'].
    by rewrite (tail_str_inj ns ns' Hns Hns' E').
Qed.

Lemma git_free_cons path x ns :
  valid_name x = true → Forall (λ n, valid_name n = true) ns →
  git_free path (x :: ns)
  = negb (bool_decide (Py.basename path = ".git")) && negb (below_git (x :: ns)).
Proof.
  intros Hx Hns. revert path x Hx.
  induction Hns as [|y ns Hy Hns IH]; intros path x Hx.
  - assert (Hb : below_git [x] = false).
    { apply bool_decide_eq_false_2. simpl. by intros ?%elem_of_nil. }
    rewrite Hb. done.
  - change (git_free path (x :: y :: ns))
      with (negb (bool_decide (Py.basename path = ".git"))
            && git_free (Py.join path x) (y :: ns)).
    rewrite (IH _ y Hy), (basename_join path x Hx). f_equal.
    unfold below_git.
    change (removelast (x :: y :: ns)) with (x :: removelast (y :: ns)).
    destruct (decide (x = ".git")) as [->|Hne].
    + rewrite (bool_decide_eq_true_2 (".git" ∈ ".git" :: _)); [|by left].
      by rewrite bool_decide_eq_true_2.
    + rewrite (bool_decide_eq_false_2 (x = ".git")) by done. simpl.
      f_equal. apply bool_decide_ext. rewrite elem_of_cons.
      split; [by right|intros [E|?]; [by destruct Hne|done]].
Qed.

End path_lemmas.

(** ** The walker, position by position *)

Section walker.

Lemma resolve_not_link n m : resolve n = Some m → islink m = false.
Proof.
  revert m. induction n as [d|es _|t|t n IH] using node_ind'; simpl; intros m.
  - by intros [= <-].
  - by intros [= <-].
  - done.
  - apply IH.
Qed.

Lemma walk_at_dir orig n es path only pk :
  resolve n = Some (Dir es) →
  get_files_from_path_at orig n path only pk = walk_dir es path only pk.
Proof.
  induction n as [d|es' _|t|t n IH] using node_ind'; simpl.
  - done.
  - by intros [= ->].
  - done.
  - apply IH.
Qed.

Lemma walk_at_leaf orig n path only pk :
  isdir n = false →
  get_files_from_path_at orig n path only pk = yield_leaf path orig only pk.
Proof.
  unfold isdir.
  induction n as [d|es' _|t|t n IH] using node_ind'; simpl; try done.
Qed.

(** The generator, one level at a time. *)
Lemma get_files_from_path_eq n path only pk :
  get_files_from_path n path only pk
  = match resolve n with
    | Some (Dir es) => walk_dir es path only pk
    | _ => yield_leaf path n only pk
    end.
Proof.
  unfold get_files_from_path.
  destruct (resolve n) as [[d|es|t o]|] eqn:E.
  - apply walk_at_leaf. unfold isdir. by rewrite E.
  - by apply walk_at_dir.
  - apply walk_at_leaf. unfold isdir. by rewrite E.
  - apply walk_at_leaf. unfold isdir. by rewrite E.
Qed.

Lemma yielded_app evs evs' : yielded (evs ++ evs') = yielded evs ++ yielded evs'.
Proof.
  induction evs as [|[p|p l] evs IH]; simpl; [done|done|by rewrite IH].
Qed.

Lemma listed_app evs evs' : listed (evs ++ evs') = listed evs ++ listed evs'.
Proof.
  induction evs as [|[p|p l] evs IH]; simpl; [done|by rewrite IH|done].
Qed.

Lemma yielded_flat_map {A} (f : A → list event) (l : list A) y :
  y ∈ yielded (flat_map f l) ↔ ∃ a, a ∈ l ∧ y ∈ yielded (f a).
Proof.
  induction l as [|a l IH]; simpl.
  - split; [by intros ?%elem_of_nil|]. intros (a & Ha%elem_of_nil & _). done.
  - rewrite yielded_app, elem_of_app, IH. split.
    + intros [H|(a' & Ha' & H)]; [exists a|exists a']; split; auto.
      * by left.
      * by right.
    + intros (a' & [->|Ha']%elem_of_cons & H); [by left|right; eauto].
Qed.

Lemma listed_flat_map {A} (f : A → list event) (l : list A) p :
  p ∈ listed (flat_map f l) ↔ ∃ a, a ∈ l ∧ p ∈ listed (f a).
Proof.
  induction l as [|a l IH]; simpl.
  - split; [by intros ?%elem_of_nil|]. intros (a & Ha%elem_of_nil & _). done.
  - rewrite listed_app, elem_of_app, IH. split.
    + intros [H|(a' & Ha' & H)]; [exists a|exists a']; split; auto.
      * by left.
      * by right.
    + intros (a' & [->|Ha']%elem_of_cons & H); [by left|right; eauto].
Qed.

Lemma entry_elem_of x es c : entry x es = Some c → (x, c) ∈ es.
Proof.
  induction es as [|[y d] es IH]; simpl; [done|].
  case_bool_decide as Hy.
  - intros [= ->]. subst. by left.
  - intros H. right. by apply IH.
Qed.

Lemma elem_of_entry x es c : NoDup es.*1 → (x, c) ∈ es → entry x es = Some c.
Proof.
  induction es as [|[y d] es IH]; simpl; [by intros _ ?%elem_of_nil|].
  intros [Hy Hnd]%NoDup_cons [[= -> ->]|Hin]%elem_of_cons.
  - by rewrite bool_decide_eq_true_2.
  - rewrite bool_decide_eq_false_2; [by apply IH|].
    intros ->. apply Hy. apply list_elem_of_fmap. by exists (x, c).
Qed.

Lemma wf_dir es :
  wf_node (Dir es) = true →
  NoDup es.*1 ∧ Forall (λ e, valid_name e.1 = true ∧ wf_node e.2 = true) es.
Proof.
  simpl. intros [[Hnd Hv]%andb_true_iff Hw]%andb_true_iff.
  apply bool_decide_eq_true in Hnd. split; [done|].
  rewrite forallb_forall in Hv, Hw. apply Forall_forall.
  intros [x c] Hin%list_elem_of_In. split.
  - apply Hv. apply in_map_iff. by exists (x, c).
  - by apply (Hw (x, c)).
Qed.

Lemma wf_resolve n m : wf_node n = true → resolve n = Some m → wf_node m = true.
Proof.
  revert m. induction n as [d|es _|t|t n IH] using node_ind'; simpl; intros m Hw.
  - by intros [= <-].
  - by intros [= <-].
  - done.
  - by apply IH.
Qed.

Lemma yields_complete ns : ∀ n path only pk leaf,
  descend n ns = Some leaf → isdir leaf = false →
  git_free path ns = true →
  (only = true → pk || in_package n ns = true) →
  (path_of path ns, leaf) ∈ yielded (get_files_from_path n path only pk).
Proof.
  induction ns as [|x ns IH]; intros n path only pk leaf; simpl.
  - intros [= ->] Hleaf _ Hpk. rewrite get_files_from_path_eq.
    unfold isdir in Hleaf.
    assert (E : yield_leaf path leaf only pk = [EvYield path leaf]).
    { unfold yield_leaf. destruct only; simpl; [|done].
      rewrite orb_false_r in Hpk. by rewrite Hpk. }
    destruct (resolve leaf) as [[d|es|t o]|]; try done;
      rewrite E; by left.
  - intros Hd Hleaf [Hg Hfree]%andb_true_iff Hpk.
    rewrite get_files_from_path_eq.
    destruct (resolve n) as [[d|es|t o]|]; try done.
    destruct (entry x es) as [c|] eqn:Hc; [|done].
    unfold walk_dir. apply negb_true_iff in Hg. rewrite Hg. simpl.
    apply yielded_flat_map. exists (x, c). split; [by apply entry_elem_of|].
    apply (IH c); try done.
    intros Ho. specialize (Hpk Ho). destruct pk; simpl in *; [done|].
    destruct (exists_in "package.xml" es); simpl in *; done.
Qed.

Lemma descend_link t n ns leaf :
  ns ≠ [] → descend n ns = Some leaf → descend (Link t (Some n)) ns = Some leaf.
Proof. destruct ns; done. Qed.

Lemma in_package_link t n ns : in_package (Link t (Some n)) ns = in_package n ns.
Proof. destruct ns; done. Qed.

Lemma yields_sound n : wf_node n = true → ∀ path only pk q leaf,
  (q, leaf) ∈ yielded (get_files_from_path n path only pk) →
  ∃ ns, descend n ns = Some leaf ∧ isdir leaf = false
        ∧ q = path_of path ns ∧ selected n path only pk ns.
Proof.
  assert (Hleaf : ∀ m path only pk q leaf, isdir m = false →
            (q, leaf) ∈ yielded (yield_leaf path m only pk) →
            ∃ ns, descend m ns = Some leaf ∧ isdir leaf = false
                  ∧ q = path_of path ns ∧ selected m path only pk ns).
  { intros m path only pk q leaf Hm Hin. exists [].
    unfold yield_leaf in Hin.
    destruct only, pk; simpl in Hin;
      try (by apply elem_of_nil in Hin);
      apply list_elem_of_singleton in Hin as [= -> ->];
      repeat split; auto; intros; done. }
  induction n as [d|es IH|t|t n IH] using node_ind';
    intros Hwf path only pk q leaf; rewrite get_files_from_path_eq.
  - by apply Hleaf.
  - simpl. unfold walk_dir. case_bool_decide as Hg; [by intros ?%elem_of_nil|].
    simpl. intros ([x c] & Hin & Hy)%yielded_flat_map.
    apply wf_dir in Hwf as [Hnd Hall].
    rewrite Forall_forall in IH, Hall.
    destruct (Hall _ Hin) as [Hx Hc]. simpl in Hx, Hc.
    destruct (IH _ Hin Hc _ _ _ _ _ Hy) as (ns & Hd & Hl & -> & Hv & Hf & Hp).
    exists (x :: ns). simpl in Hd, Hl.
    split; [simpl; by rewrite (elem_of_entry x es c Hnd Hin)|].
    split; [done|]. split; [done|].
    split; [by constructor|]. split.
    + cbn [git_free]. by rewrite bool_decide_eq_false_2.
    + intros Ho. specialize (Hp Ho). cbn [in_package resolve].
      rewrite (elem_of_entry x es c Hnd Hin).
      destruct pk; simpl in *; [done|].
      destruct (exists_in "package.xml" es); simpl in *; done.
  - by apply Hleaf.
  - simpl in Hwf. simpl resolve.
    destruct (resolve n) as [[d|es|t' o]|] eqn:E.
    + by apply Hleaf; unfold isdir; simpl; rewrite E.
    + intros Hin. specialize (IH Hwf path only pk q leaf).
      rewrite get_files_from_path_eq, E in IH.
      destruct (IH Hin) as (ns & Hd & Hl & -> & Hv & Hf & Hp).
      assert (ns ≠ []).
      { intros ->. simpl in Hd. injection Hd as ->.
        unfold isdir in Hl. by rewrite E in Hl. }
      exists ns. unfold selected. rewrite in_package_link.
      repeat split; auto. by apply descend_link.
    + by apply Hleaf; unfold isdir; simpl; rewrite E.
    + by apply Hleaf; unfold isdir; simpl; rewrite E.
Qed.

End walker.

(** ** Which files the walker selects *)

Section selection.

Lemma descend_wf ns : ∀ n m,
  wf_node n = true → descend n ns = Some m →
  Forall (λ x, valid_name x = true) ns ∧ wf_node m = true.
Proof.
  induction ns as [|x ns IH]; intros n m Hwf; simpl.
  - by intros [= <-].
  - destruct (resolve n) as [[d|es|t o]|] eqn:E; try done.
    destruct (entry x es) as [c|] eqn:Hc; [|done]. intros Hd.
    apply (wf_resolve _ _ Hwf), wf_dir in E as [_ Hall].
    rewrite Forall_forall in Hall.
    destruct (Hall _ (entry_elem_of _ _ _ Hc)) as [Hx Hwc].
    destruct (IH c m Hwc Hd) as [Hns Hm]. split; [by constructor|done].
Qed.

Lemma yields_iff ws dir only x ns leaf :
  wf_node ws = true →
  descend ws (x :: ns) = Some leaf → isdir leaf = false →
  path_of dir (x :: ns) ∈ (yielded (get_files_from_path ws dir only false)).*1
  ↔ Py.basename dir ≠ ".git" ∧ below_git (x :: ns) = false
    ∧ (only = true → in_package ws (x :: ns) = true).
Proof.
  intros Hwf Hd Hleaf.
  destruct (descend_wf _ _ _ Hwf Hd) as [Hv _].
  pose proof Hv as [Hx Hns]%Forall_cons.
  pose proof (git_free_cons dir x ns Hx Hns) as Hg.
  split.
  - intros ([q leaf'] & Hq & Hin)%list_elem_of_fmap. simpl in Hq.
    apply (yields_sound _ Hwf) in Hin as (ns' & _ & _ & -> & Hv' & Hf & Hp).
    apply (path_of_inj dir _ _ Hv Hv') in Hq as <-.
    rewrite Hg in Hf. apply andb_true_iff in Hf as [Hb Hf].
    apply negb_true_iff in Hb, Hf. apply bool_decide_eq_false in Hb.
    done.
  - intros (Hb & Hf & Hp). apply list_elem_of_fmap.
    exists (path_of dir (x :: ns), leaf). split; [done|].
    apply yields_complete; try done.
    rewrite Hg, Hf. by rewrite bool_decide_eq_false_2.
Qed.

Lemma leaf_below_dir ws ns leaf :
  isdir ws = true → descend ws ns = Some leaf → isdir leaf = false →
  ∃ x ns', ns = x :: ns'.
Proof.
  intros Hws Hd Hl. destruct ns as [|x ns']; [|by eauto].
  simpl in Hd. injection Hd as ->. congruence.
Qed.

Lemma listed_not_git n : ∀ path only pk p,
  p ∈ listed (get_files_from_path n path only pk) → Py.basename p ≠ ".git".
Proof.
  assert (Hleaf : ∀ m path only pk p,
            p ∈ listed (yield_leaf path m only pk) → Py.basename p ≠ ".git").
  { intros m path only pk p. unfold yield_leaf.
    destruct only, pk; simpl; intros H; by apply elem_of_nil in H. }
  induction n as [d|es IH|t|t n IH] using node_ind';
    intros path only pk p; rewrite get_files_from_path_eq.
  - apply Hleaf.
  - simpl. unfold walk_dir. case_bool_decide as Hg; [by intros ?%elem_of_nil|].
    simpl. intros [->|([x c] & Hin & Hp)%listed_flat_map]%elem_of_cons; [done|].
    rewrite Forall_forall in IH. by apply (IH _ Hin) in Hp.
  - apply Hleaf.
  - simpl resolve. specialize (IH path only pk p).
    rewrite get_files_from_path_eq in IH.
    destruct (resolve n) as [[d|es|t' o]|]; try apply Hleaf. apply IH.
Qed.

End selection.

(** ** The dictionary built from the yielded paths *)

Section dictionary.

Lemma loop_out dir ys : ∀ m out,
  ws_files_loop dir ys m out
  = (out ++ (ws_files_loop dir ys m []).1, (ws_files_loop dir ys m []).2).
Proof.
  induction ys as [|[q leaf] ys IH]; intros m out; simpl.
  - by rewrite app_nil_r.
  - destruct leaf as [[|c x]|es|t d].
    + by rewrite app_nil_r.
    + apply IH.
    + by rewrite app_nil_r.
    + rewrite (IH m (out ++ _)), (IH m [_]). simpl.
      by rewrite <-app_assoc.
Qed.

Lemma loop_nonlinks dir ys : ∀ m out out',
  (ws_files_loop dir ys m out).2 = (ws_files_loop dir (nonlinks ys) m out').2.
Proof.
  unfold nonlinks.
  induction ys as [|[q leaf] ys IH]; intros m out out'; [done|].
  destruct leaf as [[|c x]|es|t d].
  - rewrite filter_cons_True by done. done.
  - rewrite filter_cons_True by done. simpl. apply IH.
  - rewrite filter_cons_True by done. done.
  - rewrite filter_cons_False by done. simpl. apply IH.
Qed.

Lemma loop_ok_out dir ys : ∀ m out out' m',
  ws_files_loop dir ys m out = (out', Ok m') →
  out' = out ++ map (λ y, symlink_warning y.1 (readlink y.2)) (links ys).
Proof.
  unfold links.
  induction ys as [|[q leaf] ys IH]; intros m out out' m'.
  - intros [= <- _]. by rewrite app_nil_r.
  - destruct leaf as [[|c x]|es|t d]; try done.
    + rewrite filter_cons_False by done. apply IH.
    + rewrite filter_cons_True by done. simpl. intros ->%IH.
      by rewrite <-app_assoc.
Qed.

Lemma loop_completes dir ys : ∀ m out,
  Forall (λ y, islink y.2 = false → readable y.2 = true) ys →
  ∃ m', (ws_files_loop dir ys m out).2 = Ok m'.
Proof.
  induction ys as [|[q leaf] ys IH]; intros m out; simpl.
  - by exists m.
  - intros [Hy Hys]%Forall_cons. simpl in Hy.
    destruct leaf as [[|c x]|es|t d]; try (by specialize (Hy eq_refl));
      by apply IH.
Qed.

Lemma loop_entries dir ys : ∀ m out out' m',
  ws_files_loop dir ys m out = (out', Ok m') →
  ∀ k c, m' !! k = Some c →
    m !! k = Some c
    ∨ ∃ q x, (q, File (Readable c x)) ∈ ys ∧ k = virtual_path dir q.
Proof.
  induction ys as [|[q leaf] ys IH]; intros m out out' m'; simpl.
  - intros [= _ <-]. by left.
  - destruct leaf as [[|c x]|es|t d]; try done.
    + intros Hl k c' Hk. destruct (IH _ _ _ _ Hl k c' Hk) as [Hm|(q' & x' & Hin & ->)].
      * destruct (decide (virtual_path dir q = k)) as [<-|Hne].
        -- rewrite lookup_insert_eq in Hm. injection Hm as <-.
           right. exists q, x. split; [by left|done].
        -- rewrite lookup_insert_ne in Hm by done. by left.
      * right. exists q', x'. split; [by right|done].
    + intros Hl k c' Hk. destruct (IH _ _ _ _ Hl k c' Hk) as [Hm|(q' & x' & Hin & ->)].
      * by left.
      * right. exists q', x'. split; [by right|done].
Qed.

Lemma loop_keeps dir ys : ∀ m out out' m' k,
  ws_files_loop dir ys m out = (out', Ok m') →
  is_Some (m !! k) → is_Some (m' !! k).
Proof.
  induction ys as [|[q leaf] ys IH]; intros m out out' m' k; simpl.
  - by intros [= _ <-].
  - destruct leaf as [[|c x]|es|t d]; try done.
    + intros Hl Hk. apply (IH _ _ _ _ _ Hl).
      destruct (decide (virtual_path dir q = k)) as [<-|Hne].
      * by rewrite lookup_insert_eq.
      * by rewrite lookup_insert_ne.
    + apply IH.
Qed.

Lemma loop_keys dir ys : ∀ m out out' m',
  ws_files_loop dir ys m out = (out', Ok m') →
  ∀ q c x, (q, File (Readable c x)) ∈ ys → is_Some (m' !! virtual_path dir q).
Proof.
  induction ys as [|[q leaf] ys IH]; intros m out out' m'; simpl.
  - intros _ q c x Hin. by apply elem_of_nil in Hin.
  - destruct leaf as [[|c x]|es|t d]; try done.
    + intros Hl q' c' x' [[= -> -> ->]|Hin]%elem_of_cons.
      * apply (loop_keeps _ _ _ _ _ _ _ Hl). by rewrite lookup_insert_eq.
      * by apply (IH _ _ _ _ Hl q' c' x').
    + intros Hl q' c' x' [[=]|Hin]%elem_of_cons.
      by apply (IH _ _ _ _ Hl q' c' x').
Qed.

End dictionary.

(** ** The keys of the dictionary *)

(** C3.  The key of an emitted file is meant to be the virtual root
    followed by the unchanged remainder of the path.  [str.replace]
    rewrites every occurrence of the root instead: under the root [/ws],
    the emitted file [/ws/pkg/ws/f.txt] gets the key
    [ros_ws_src//pkgros_ws_src//f.txt], while replacing the leading
    occurrence alone gives [ros_ws_src//pkg/ws/f.txt]. *)
Theorem virtual_path_rewrites_inner_root :
  ("/ws/pkg/ws/f.txt", source "data")
    ∈ yielded (get_files_from_path inner_root "/ws" true false)
  ∧ virtual_path "/ws" "/ws/pkg/ws/f.txt" = "ros_ws_src//pkgros_ws_src//f.txt"
  ∧ leading_replaced "/ws" "/ws/pkg/ws/f.txt" = "ros_ws_src//pkg/ws/f.txt"
  ∧ get_files inner_root "/ws"
    = ([], Ok (<["ros_ws_src//pkgros_ws_src//f.txt" := Text "data"]>
                 (<["ros_ws_src//pkg/package.xml" := Text ""]> ∅))).
Proof.
  split; [|split; [|split]]; vm_compute; try reflexivity.
  right. left.
Qed.

(** C4.  The mapping from source path to key is meant to be injective.
    Under the root [/w] the two emitted files [/w/d/wx] and
    [/w/dros_ws_src/x] get the same key, so the dictionary of the three
    emitted files has two entries and the contents of [/w/d/wx] are lost. *)
Theorem virtual_path_collision :
  (yielded (get_files_from_path colliding "/w" true false)).*1
  = ["/w/package.xml"; "/w/d/wx"; "/w/dros_ws_src/x"]
  ∧ "/w/d/wx" ≠ "/w/dros_ws_src/x"
  ∧ virtual_path "/w" "/w/d/wx" = virtual_path "/w" "/w/dros_ws_src/x"
  ∧ get_files colliding "/w"
    = ([], Ok (<["ros_ws_src//dros_ws_src/x" := Text "second"]>
                 (<["ros_ws_src//package.xml" := Text ""]> ∅))).
Proof.
  split; [|split; [|split]]; try (vm_compute; reflexivity). discriminate.
Qed.

(** ** Selection by package membership *)

(** C5, as stated, fails: [.git/config] lies beneath a directory that
    holds [package.xml], yet neither mode yields it. *)
Lemma git_file_in_package_not_selected :
  descend git_in_package [".git"; "config"] = Some (source "[core]")
  ∧ in_package git_in_package [".git"; "config"] = true
  ∧ (path_of "/ws" [".git"; "config"]
     ∉ (yielded (get_files_from_path git_in_package "/ws" true false)).*1)
  ∧ (path_of "/ws" [".git"; "config"]
     ∉ (yielded (get_files_from_path git_in_package "/ws" false false)).*1).
Proof.
  split; [reflexivity|]. split; [reflexivity|].
  split; vm_compute; intros H;
    repeat (apply elem_of_cons in H; destruct H as [H|H]; [discriminate H|]);
    by apply elem_of_nil in H.
Qed.

(** C5, amended.  In a workspace directory, a file that is not beneath a
    directory named [.git] is yielded in packages-only mode exactly when
    some directory above it holds an existing entry [package.xml], and
    is always yielded in the other mode; files beneath a [.git]
    directory, and every file when the base name of the root itself is
    [.git], are yielded in neither mode. *)
Theorem packages_only_selection ws dir ns leaf :
  wf_node ws = true → isdir ws = true →
  descend ws ns = Some leaf → isdir leaf = false →
  (path_of dir ns ∈ (yielded (get_files_from_path ws dir true false)).*1
   ↔ Py.basename dir ≠ ".git" ∧ below_git ns = false ∧ in_package ws ns = true)
  ∧ (path_of dir ns ∈ (yielded (get_files_from_path ws dir false false)).*1
     ↔ Py.basename dir ≠ ".git" ∧ below_git ns = false).
Proof.
  intros Hwf Hws Hd Hleaf.
  destruct (leaf_below_dir _ _ _ Hws Hd Hleaf) as (x & ns' & ->).
  split.
  - rewrite (yields_iff ws dir true x ns' leaf Hwf Hd Hleaf). tauto.
  - rewrite (yields_iff ws dir false x ns' leaf Hwf Hd Hleaf).
    split; [tauto|intros [? ?]; repeat split; done].
Qed.

Lemma packages_only_selection_witness :
  (wf_node git_in_package = true ∧ isdir git_in_package = true
   ∧ descend git_in_package ["main.cpp"] = Some (source "int main;")
   ∧ isdir (source "int main;") = false)
  ∧ (path_of "/ws" ["main.cpp"]
       ∈ (yielded (get_files_from_path git_in_package "/ws" true false)).*1
     ↔ Py.basename "/ws" ≠ ".git" ∧ below_git ["main.cpp"] = false
       ∧ in_package git_in_package ["main.cpp"] = true).
Proof.
  split; [repeat split; reflexivity|].
  apply (packages_only_selection git_in_package "/ws" ["main.cpp"]
           (source "int main;")); reflexivity.
Defined.

(** C9.  In both modes the generator never lists a directory whose base
    name is [.git]; every path it yields is the path of a position that
    passes through no directory named [.git]; no position beneath such a
    directory and no directory is yielded; and every key of the returned
    dictionary is the key of such a yielded file. *)
Theorem git_directories_skipped ws dir only :
  wf_node ws = true →
  (∀ p, p ∈ listed (get_files_from_path ws dir only false) →
        Py.basename p ≠ ".git")
  ∧ (∀ q leaf, (q, leaf) ∈ yielded (get_files_from_path ws dir only false) →
       ∃ ns, descend ws ns = Some leaf ∧ isdir leaf = false
             ∧ q = path_of dir ns ∧ below_git ns = false)
  ∧ (∀ ns m, descend ws ns = Some m → below_git ns = true ∨ isdir m = true →
       path_of dir ns ∉ (yielded (get_files_from_path ws dir only false)).*1)
  ∧ (∀ out m k c, generate_ws_files ws dir only = (out, Ok m) →
       m !! k = Some c →
       ∃ ns x, descend ws ns = Some (File (Readable c x))
               ∧ k = virtual_path dir (path_of dir ns) ∧ below_git ns = false).
Proof.
  intros Hwf.
  assert (Hsound : ∀ q leaf,
            (q, leaf) ∈ yielded (get_files_from_path ws dir only false) →
            ∃ ns, descend ws ns = Some leaf ∧ isdir leaf = false
                  ∧ q = path_of dir ns ∧ below_git ns = false
                  ∧ Forall (λ x, valid_name x = true) ns).
  { intros q leaf Hin.
    apply (yields_sound _ Hwf) in Hin as (ns & Hd & Hl & -> & Hv & Hf & _).
    exists ns. repeat split; try done.
    destruct Hv as [|x ns Hx Hns]; [by apply bool_decide_eq_false_2, not_elem_of_nil|].
    rewrite (git_free_cons dir x ns Hx Hns) in Hf.
    apply andb_true_iff in Hf as [_ Hf]. by apply negb_true_iff in Hf. }
  split; [intros p; apply listed_not_git|].
  split; [intros q leaf Hin; destruct (Hsound q leaf Hin) as (ns & ?); exists ns; tauto|].
  split.
  - intros ns m Hd Hbad ([q leaf] & Hq & Hin)%list_elem_of_fmap. simpl in Hq.
    destruct (Hsound q leaf Hin) as (ns' & Hd' & Hl & -> & Hg & Hv').
    destruct (descend_wf _ _ _ Hwf Hd) as [Hv _].
    apply (path_of_inj dir _ _ Hv Hv') in Hq as <-.
    rewrite Hd in Hd'. injection Hd' as ->.
    destruct Hbad; congruence.
  - intros out m k c Hgen Hk. unfold generate_ws_files in Hgen.
    destruct (loop_entries _ _ _ _ _ _ Hgen k c Hk) as [He|(q & x & Hin & ->)].
    + by rewrite lookup_empty in He.
    + destruct (Hsound _ _ Hin) as (ns & Hd & _ & -> & Hg & _).
      by exists ns, x.
Qed.

Lemma git_directories_skipped_witness :
  wf_node git_in_package = true
  ∧ ∀ ns m, descend git_in_package ns = Some m →
      below_git ns = true ∨ isdir m = true →
      path_of "/ws" ns
      ∉ (yielded (get_files_from_path git_in_package "/ws" true false)).*1.
Proof.
  split; [reflexivity|].
  apply (git_directories_skipped git_in_package "/ws" true). reflexivity.
Defined.

(** ** Symbolic links *)

(** C8, as stated, fails: [data] is a symbolic link in the workspace, it
    resolves to a directory, and the walk goes through it without any
    diagnostic and emits the file below it; and a link to a file outside
    every package gets no diagnostic in packages-only mode. *)
Lemma symlink_without_diagnostic :
  descend linked_data ["data"]
  = Some (Link "/mnt/data" (Some (Dir [("big.bin", source "0101")])))
  ∧ get_files linked_data "/ws"
    = ([], Ok (<["ros_ws_src//data/big.bin" := Text "0101"]>
                 (<["ros_ws_src//package.xml" := Text ""]> ∅)))
  ∧ descend stray_link ["notes"]
    = Some (Link "/tmp/notes.txt" (Some (source "todo")))
  ∧ get_files stray_link "/ws" = ([], Ok ∅).
Proof. repeat split; vm_compute; reflexivity. Qed.

(** C8, amended.  Every yielded path that is a symbolic link is skipped:
    the outcome of the walk is that of the yielded paths that are not
    links, so a link never makes it fail; when the walk returns, its
    diagnostics are one line per yielded link, naming the link and its
    target, every entry of the dictionary comes from a yielded regular
    file, every yielded regular file has its key in the dictionary, and
    a link that does not resolve to a directory, does not lie beneath a
    [.git] directory and is selected by the mode has its diagnostic. *)
Theorem yielded_symlinks_skipped ws dir only :
  let ys := yielded (get_files_from_path ws dir only false) in
  (generate_ws_files ws dir only).2 = (ws_files_loop dir (nonlinks ys) ∅ []).2
  ∧ (Forall (λ y, islink y.2 = false → readable y.2 = true) ys →
     ∃ m, (generate_ws_files ws dir only).2 = Ok m)
  ∧ ∀ out m, generate_ws_files ws dir only = (out, Ok m) →
      out = map (λ y, symlink_warning y.1 (readlink y.2)) (links ys)
      ∧ (∀ k c, m !! k = Some c →
           ∃ q x, (q, File (Readable c x)) ∈ ys ∧ k = virtual_path dir q)
      ∧ (∀ q c x, (q, File (Readable c x)) ∈ ys →
           is_Some (m !! virtual_path dir q))
      ∧ (∀ ns t d, descend ws ns = Some (Link t d) →
           isdir (Link t d) = false → git_free dir ns = true →
           (only = true → in_package ws ns = true) →
           symlink_warning (path_of dir ns) t ∈ out).
Proof.
  intros ys. unfold generate_ws_files. fold ys.
  split; [apply loop_nonlinks|]. split; [apply loop_completes|].
  intros out m Hgen.
  pose proof (loop_ok_out _ _ _ _ _ _ Hgen) as Hout. simpl in Hout.
  split; [done|]. split.
  { intros k c Hk.
    destruct (loop_entries _ _ _ _ _ _ Hgen k c Hk) as [He|?]; [|done].
    by rewrite lookup_empty in He. }
  split; [apply (loop_keys _ _ _ _ _ _ Hgen)|].
  intros ns t d Hd Hl Hg Hp. rewrite Hout.
  apply (list_elem_of_fmap_2 (λ y, symlink_warning y.1 (readlink y.2))
           _ (path_of dir ns, Link t d)).
  apply list_elem_of_filter. split; [done|].
  apply yields_complete; done.
Qed.

Lemma yielded_symlinks_skipped_witness :
  generate_ws_files linked_file "/ws" true
  = (["Warning: Could not copy symlink /ws/notes -> /tmp/notes.txt"],
     Ok (<["ros_ws_src//main.cpp" := Text "int main;"]>
           (<["ros_ws_src//package.xml" := Text ""]> ∅)))
  ∧ symlink_warning (path_of "/ws" ["notes"]) "/tmp/notes.txt"
    ∈ ["Warning: Could not copy symlink /ws/notes -> /tmp/notes.txt"].
Proof.
  assert (E : generate_ws_files linked_file "/ws" true
              = (["Warning: Could not copy symlink /ws/notes -> /tmp/notes.txt"],
                 Ok (<["ros_ws_src//main.cpp" := Text "int main;"]>
                       (<["ros_ws_src//package.xml" := Text ""]> ∅))))
    by (vm_compute; reflexivity).
  split; [exact E|].
  apply (yielded_symlinks_skipped linked_file "/ws" true) with
    (m := <["ros_ws_src//main.cpp" := Text "int main;"]>
            (<["ros_ws_src//package.xml" := Text ""]> ∅))
    (d := Some (source "todo")); reflexivity.
Defined.

(** ** The resolver: dependencies and names collected *)

Section resolver.

Lemma add_dep_fold l : ∀ deps x,
  x ∈ foldl add_dep deps l
  ↔ x ∈ deps ∨ ∃ dep t, dep ∈ l ∧ el_text dep = Some t ∧ t ≠ ""
                          ∧ x = Py.strip t.
Proof.
  induction l as [|d l IH]; intros deps x; simpl.
  - split; [by left|]. intros [?|(dep & t & Hin & _)]; [done|].
    by apply elem_of_nil in Hin.
  - rewrite IH. unfold add_dep. split.
    + intros [Hx|(dep & t & Hin & Hrest)].
      * destruct (el_text d) as [t|] eqn:Ht; [|by left].
        case_bool_decide as He; [by left|].
        apply elem_of_union in Hx as [->%elem_of_singleton|Hx]; [|by left].
        right. exists d, t. split; [by left|done].
      * right. exists dep, t. split; [by right|done].
    + intros [Hx|(dep & t & [->|Hin]%elem_of_cons & Ht & Hne & ->)].
      * left. destruct (el_text d); [|done].
        case_bool_decide; [done|by apply elem_of_union_r].
      * left. rewrite Ht. rewrite bool_decide_eq_false_2 by done.
        by apply elem_of_union_l, elem_of_singleton.
      * right. by exists dep, t.
Qed.

Lemma add_deps_fold root tags : ∀ deps x,
  x ∈ foldl (λ deps tag, foldl add_dep deps (findall tag root)) deps tags
  ↔ x ∈ deps ∨ ∃ dep t, dep ∈ el_children root ∧ el_tag dep ∈ tags
                          ∧ el_text dep = Some t ∧ t ≠ "" ∧ x = Py.strip t.
Proof.
  induction tags as [|tag tags IH]; intros deps x; simpl.
  - split; [by left|]. intros [?|(dep & t & _ & Hin & _)]; [done|].
    by apply elem_of_nil in Hin.
  - rewrite IH, add_dep_fold. unfold findall. split.
    + intros [[Hx|(dep & t & [Htag Hin]%list_elem_of_filter & Hrest)]
             |(dep & t & Hin & Htag & Hrest)].
      * by left.
      * right. exists dep, t. split; [done|]. split; [|done].
        rewrite Htag. by left.
      * right. exists dep, t. split; [done|]. split; [by right|done].
    + intros [Hx|(dep & t & Hin & [Htag|Htag]%elem_of_cons & Hrest)].
      * by left; left.
      * left; right. exists dep, t. split; [|done].
        by apply list_elem_of_filter.
      * right. by exists dep, t.
Qed.

Lemma add_deps_spec root deps x :
  x ∈ add_deps root deps ↔ x ∈ deps ∨ declares_dep root x.
Proof. apply add_deps_fold. Qed.

Lemma parse_loop_ok xmls : ∀ deps src out out' deps' src',
  parse_loop xmls deps src out = (out', Ok (deps', src')) →
  (∀ x, x ∈ deps'
        ↔ x ∈ deps ∨ ∃ p f root, (p, f) ∈ xmls ∧ ET_parse f = Parsed root
                                  ∧ declares_dep root x)
  ∧ (∀ x, x ∈ src'
          ↔ x ∈ src ∨ ∃ p f root, (p, f) ∈ xmls ∧ ET_parse f = Parsed root
                                   ∧ declares_name root x).
Proof.
  induction xmls as [|[p f] xmls IH]; intros deps src out out' deps' src'; simpl.
  - intros [= _ <- <-].
    split; intros x; (split; [by left|]);
      intros [?|(p & f & root & Hin & _)]; try done;
      by apply elem_of_nil in Hin.
  - destruct (ET_parse f) as [| |root] eqn:Hf; [|done|].
    + intros [Hd Hs]%IH. split; intros x; [rewrite Hd|rewrite Hs];
        (split; [intros [?|(p' & f' & r & Hin & Hr)]; [by left|];
                 right; exists p', f', r; split; [by right|done]
                |intros [?|(p' & f' & r & [[= -> ->]|Hin]%elem_of_cons & Hp & Hr)];
                 [by left|congruence|right; by exists p', f', r]]).
    + destruct (find "name" root) as [name|] eqn:Hn; [|done].
      destruct (el_text name) as [t|] eqn:Ht; [|done].
      intros [Hd Hs]%IH. split; intros x; [rewrite Hd|rewrite Hs].
      * rewrite add_deps_spec. split.
        -- intros [[?|Hdep]|(p' & f' & r & Hin & Hr)]; [by left| |].
           ++ right. exists p, f, root. split; [by left|done].
           ++ right. exists p', f', r. split; [by right|done].
        -- intros [?|(p' & f' & r & [[= -> ->]|Hin]%elem_of_cons & Hp & Hr)].
           ++ by left; left.
           ++ left; right. congruence.
           ++ right. by exists p', f', r.
      * rewrite elem_of_union, elem_of_singleton. split.
        -- intros [[->|?]|(p' & f' & r & Hin & Hr)]; [|by left|].
           ++ right. exists p, f, root. split; [by left|].
              split; [done|]. by exists name, t.
           ++ right. exists p', f', r. split; [by right|done].
        -- intros [?|(p' & f' & r & [[= -> ->]|Hin]%elem_of_cons & Hp & Hr)].
           ++ by left; right.
           ++ left; left. destruct Hr as (name' & t' & Hn' & Ht' & ->).
              congruence.
           ++ right. by exists p', f', r.
Qed.

Lemma parse_loop_completes xmls : ∀ deps src out,
  Forall (λ m, processable m.2 = true) xmls →
  ∃ out' r, parse_loop xmls deps src out = (out', Ok r).
Proof.
  induction xmls as [|[p f] xmls IH]; intros deps src out; simpl.
  - by eexists _, _.
  - intros [Hf Hall]%Forall_cons. unfold processable in Hf. simpl in Hf.
    destruct (ET_parse f) as [| |root]; [by apply IH|done|].
    destruct (find "name" root) as [name|]; [|done].
    apply bool_decide_eq_true in Hf as [t ->]. by apply IH.
Qed.

Lemma parse_loop_aborts xmls : ∀ deps src out p f,
  (p, f) ∈ xmls → processable f = false →
  ∃ out' e, parse_loop xmls deps src out = (out', Raise e).
Proof.
  induction xmls as [|[p' f'] xmls IH]; intros deps src out p f; simpl.
  - by intros ?%elem_of_nil.
  - intros Hin Hbad.
    assert (Hcase : processable f' = false ∨ (p, f) ∈ xmls).
    { apply elem_of_cons in Hin as [[= -> ->]|?]; [by left|by right]. }
    unfold processable in Hcase.
    destruct (ET_parse f') as [| |root].
    + destruct Hcase as [?|Hin']; [done|]. by apply (IH _ _ _ p f).
    + by eexists _, _.
    + destruct (find "name" root) as [name|]; [|by eexists _, _].
      destruct (el_text name) as [t|]; [|by eexists _, _].
      destruct Hcase as [Hc|Hin']; [|by apply (IH _ _ _ p f)].
      apply bool_decide_eq_false in Hc. destruct Hc. by exists t.
Qed.

End resolver.

(** ** The manifests [os.walk] finds *)

Section manifests.

Lemma package_xmls_of_app a b :
  package_xmls_of (a ++ b) = package_xmls_of a ++ package_xmls_of b.
Proof.
  induction a as [|[[r ds] fs] a IH]; simpl; [done|].
  destruct (entry "package.xml" fs); simpl; by rewrite IH.
Qed.

Lemma package_xmls_of_flat_map {A}
    (g : A → list (string * list string * list (string * node))) l y :
  y ∈ package_xmls_of (flat_map g l) ↔ ∃ a, a ∈ l ∧ y ∈ package_xmls_of (g a).
Proof.
  induction l as [|a l IH]; simpl.
  - split; [by intros ?%elem_of_nil|]. intros (a & Ha%elem_of_nil & _). done.
  - rewrite package_xmls_of_app, elem_of_app, IH. split.
    + intros [H|(a' & Ha' & H)]; [exists a|exists a']; split; auto.
      * by left.
      * by right.
    + intros (a' & [->|Ha']%elem_of_cons & H); [by left|right; eauto].
Qed.

Lemma entry_filter_2 (P : string * node → Prop) `{!∀ e, Decision (P e)} x es f :
  entry x es = Some f → P (x, f) → entry x (filter P es) = Some f.
Proof.
  induction es as [|[y d] es IH]; simpl; [done|].
  case_bool_decide as Hy.
  - intros [= ->] HP. subst y. rewrite filter_cons_True by done.
    simpl. by rewrite bool_decide_eq_true_2.
  - intros He HP. destruct (decide (P (y, d))).
    + rewrite filter_cons_True by done. simpl.
      rewrite bool_decide_eq_false_2 by done. by apply IH.
    + rewrite filter_cons_False by done. by apply IH.
Qed.

Lemma entry_filter_1 (P : string * node → Prop) `{!∀ e, Decision (P e)} x es f :
  NoDup es.*1 → entry x (filter P es) = Some f →
  entry x es = Some f ∧ P (x, f).
Proof.
  intros Hnd [HP Hin]%entry_elem_of%list_elem_of_filter.
  split; [by apply elem_of_entry|done].
Qed.

Lemma subdir_wf ns : ∀ n es,
  wf_node n = true → subdir n ns = Some es → NoDup es.*1.
Proof.
  induction ns as [|x ns IH]; intros [d|es0|t o] es Hwf; simpl; try done.
  - intros [= <-]. by apply wf_dir in Hwf as [? _].
  - destruct (entry x es0) as [c|] eqn:Hc; [|done].
    apply wf_dir in Hwf as [_ Hall]. rewrite Forall_forall in Hall.
    destruct (Hall _ (entry_elem_of _ _ _ Hc)) as [_ Hwc]. by apply IH.
Qed.

Lemma os_walk_finds ns : ∀ n top es f,
  subdir n ns = Some es → entry "package.xml" (walk_files es) = Some f →
  ∃ p, (p, f) ∈ package_xmls_of (os_walk n top).
Proof.
  induction ns as [|x ns IH]; intros [d|es0|t o] top es f; simpl; try done.
  - intros [= <-] ->. eexists. by left.
  - destruct (entry x es0) as [c|] eqn:Hc; [|done]. intros Hs Hf.
    assert (∃ es', c = Dir es') as [es' ->].
    { destruct c, ns; try done; by eexists. }
    destruct (IH (Dir es') (Py.join top x) es f Hs Hf) as [p Hp].
    exists p.
    assert (Hin : (p, f) ∈ package_xmls_of
             (flat_map (λ '(name, c), match c with
                                      | Dir _ => os_walk c (Py.join top name)
                                      | _ => []
                                      end) es0)).
    { apply package_xmls_of_flat_map. exists (x, Dir es').
      split; [by apply entry_elem_of|done]. }
    destruct (entry "package.xml" (walk_files es0)); [by right|done].
Qed.

Lemma os_walk_found n : wf_node n = true → ∀ top p f,
  (p, f) ∈ package_xmls_of (os_walk n top) →
  ∃ ns es, subdir n ns = Some es
           ∧ entry "package.xml" (walk_files es) = Some f.
Proof.
  induction n as [d|es IH|t|t n _] using node_ind'; intros Hwf top p f;
    try (by intros ?%elem_of_nil).
  simpl.
  assert (Htail : (p, f) ∈ package_xmls_of
             (flat_map (λ '(name, c), match c with
                                      | Dir _ => os_walk c (Py.join top name)
                                      | _ => []
                                      end) es) →
           ∃ ns es', subdir (Dir es) ns = Some es'
                     ∧ entry "package.xml" (walk_files es') = Some f).
  { intros ([x c] & Hin & Hp)%package_xmls_of_flat_map.
    apply wf_dir in Hwf as [Hnd Hall]. rewrite Forall_forall in IH, Hall.
    destruct (Hall _ Hin) as [_ Hwc]. simpl in Hwc.
    destruct c as [d|es'|t o]; try (by apply elem_of_nil in Hp).
    destruct (IH _ Hin Hwc _ _ _ Hp) as (ns & es'' & Hs & Hf).
    exists (x :: ns), es''. simpl.
    by rewrite (elem_of_entry _ _ _ Hnd Hin). }
  destruct (entry "package.xml" (walk_files es)) as [f'|] eqn:Hf'; [|done].
  intros [[= -> ->]|Hin]%elem_of_cons; [|by apply Htail].
  by exists [], es.
Qed.

(** The manifests the resolver collects are the manifests of the
    workspace. *)
Lemma package_xmls_manifest_in ws dir f :
  wf_node ws = true →
  (∃ p, (p, f) ∈ package_xmls ws dir) ↔ manifest_in ws f.
Proof.
  intros Hwf. unfold package_xmls, manifest_in. split.
  - intros [p Hp]. destruct (resolve ws) as [[d|es|t o]|] eqn:E;
      try (by apply elem_of_nil in Hp).
    pose proof (wf_resolve _ _ Hwf E) as Hwt.
    destruct (os_walk_found _ Hwt _ _ _ Hp) as (ns & es' & Hs & Hf).
    apply entry_filter_1 in Hf as [Hf Hdir]; [|by apply (subdir_wf ns (Dir es))].
    by exists (Dir es), ns, es'.
  - intros (top & ns & es & -> & Hs & Hf & Hdir).
    assert (∃ es0, top = Dir es0) as [es0 ->].
    { destruct top, ns; try done; by eexists. }
    apply (os_walk_finds ns (Dir es0) dir es f Hs).
    by apply (entry_filter_2 (λ e, isdir e.2 = false)).
Qed.

Lemma package_xmls_files ws dir p f :
  (p, f) ∈ package_xmls ws dir → isdir f = false.
Proof.
  unfold package_xmls.
  destruct (resolve ws) as [[d|es|t o]|]; try (by intros ?%elem_of_nil).
  generalize (Dir es) dir. clear. intros n. 
  induction n as [d|es IH|t|t n _] using node_ind'; intros top;
    try (by intros ?%elem_of_nil).
  simpl.
  assert (Htail : (p, f) ∈ package_xmls_of
             (flat_map (λ '(name, c), match c with
                                      | Dir _ => os_walk c (Py.join top name)
                                      | _ => []
                                      end) es) → isdir f = false).
  { intros ([x c] & Hin & Hp)%package_xmls_of_flat_map.
    rewrite Forall_forall in IH.
    destruct c as [d|es'|t o]; try (by apply elem_of_nil in Hp).
    by apply (IH _ Hin _ Hp). }
  destruct (entry "package.xml" (walk_files es)) as [f'|] eqn:Hf'; [|done].
  intros [[= -> ->]|Hin]%elem_of_cons; [|by apply Htail].
  by apply entry_elem_of, list_elem_of_filter in Hf' as [? _].
Qed.

Lemma sorted_elements (s : gset string) :
  StronglySorted String.le (Py.sorted (elements s))
  ∧ NoDup (Py.sorted (elements s))
  ∧ ∀ x, x ∈ Py.sorted (elements s) ↔ x ∈ s.
Proof.
  unfold Py.sorted. split; [apply StronglySorted_merge_sort; apply _|].
  split.
  - rewrite merge_sort_Permutation. apply NoDup_elements.
  - intros x. by rewrite merge_sort_Permutation, elem_of_elements.
Qed.

End manifests.

(** ** The dependency closure *)

(** C1.  Whenever the resolver returns, its list is strictly ascending
    (sorted and without duplicates) and holds exactly the names that
    some parsed manifest of the workspace declares as a dependency and
    that no parsed manifest declares as its package name; it does return
    on a workspace directory each of whose manifests is malformed or has
    a [name] element with text; and the workspace with [pkg_a] and
    [pkg_b] yields [libbar; libfoo]. *)
Theorem rosdeps_closure :
  (∀ ws dir l, wf_node ws = true → (get_rosdeps ws dir).2 = Ok l →
     StronglySorted String.le l ∧ NoDup l
     ∧ ∀ x, x ∈ l ↔ declared_dependency ws x ∧ ¬ local_package ws x)
  ∧ (∀ ws dir, isdir ws = true →
       Forall (λ m, processable m.2 = true) (package_xmls ws dir) →
       ∃ l, (get_rosdeps ws dir).2 = Ok l)
  ∧ get_rosdeps two_packages "/ws" = ([], Ok ["libbar"; "libfoo"]).
Proof.
  split; [|split]; [| |vm_compute; reflexivity].
  - intros ws dir l Hwf. unfold get_rosdeps, is_workspace_volume.
    destruct (isdir ws); [|done].
    destruct (parse_loop (package_xmls ws dir) ∅ ∅ [])
      as [out [[deps src]|e]] eqn:Hloop; [|done].
    simpl. intros [= <-].
    destruct (sorted_elements (deps ∖ src)) as (Hs & Hnd & Hin).
    split; [done|]. split; [done|]. intros x.
    rewrite Hin, elem_of_difference.
    destruct (parse_loop_ok _ _ _ _ _ _ _ Hloop) as [Hd Hn].
    assert (Hdep : x ∈ deps ↔ declared_dependency ws x).
    { rewrite Hd. split.
      - intros [?%not_elem_of_empty|(p & f & root & Hp & Hf & Hx)]; [done|].
        exists root. split; [|done]. exists f. split; [|done].
        apply (package_xmls_manifest_in ws dir f Hwf). by exists p.
      - intros (root & (f & Hm & Hf) & Hx). right.
        apply (package_xmls_manifest_in ws dir f Hwf) in Hm as [p Hp].
        by exists p, f, root. }
    assert (Hsrc : x ∈ src ↔ local_package ws x).
    { rewrite Hn. split.
      - intros [?%not_elem_of_empty|(p & f & root & Hp & Hf & Hx)]; [done|].
        exists root. split; [|done]. exists f. split; [|done].
        apply (package_xmls_manifest_in ws dir f Hwf). by exists p.
      - intros (root & (f & Hm & Hf) & Hx). right.
        apply (package_xmls_manifest_in ws dir f Hwf) in Hm as [p Hp].
        by exists p, f, root. }
    by rewrite Hdep, Hsrc.
  - intros ws dir Hws Hall. unfold get_rosdeps, is_workspace_volume.
    rewrite Hws.
    destruct (parse_loop_completes _ ∅ ∅ [] Hall) as (out & [deps src] & ->).
    by eexists.
Qed.

Lemma rosdeps_closure_witness :
  (wf_node two_packages = true
   ∧ (get_rosdeps two_packages "/ws").2 = Ok ["libbar"; "libfoo"])
  ∧ ("libfoo" ∈ ["libbar"; "libfoo"]
     ↔ declared_dependency two_packages "libfoo"
       ∧ ¬ local_package two_packages "libfoo").
Proof.
  split; [split; vm_compute; reflexivity|].
  apply (proj1 rosdeps_closure two_packages "/ws" ["libbar"; "libfoo"]);
    vm_compute; reflexivity.
Defined.

(** C2.  A manifest that parses but has no [name] element makes the
    resolver raise: whenever such a manifest is among those collected in
    a workspace directory, no list is returned, whatever the sibling
    manifests hold. *)
Theorem nameless_manifest_aborts ws dir p f root :
  isdir ws = true → (p, f) ∈ package_xmls ws dir →
  ET_parse f = Parsed root → find "name" root = None →
  ∃ e, (get_rosdeps ws dir).2 = Raise e.
Proof.
  intros Hws Hin Hf Hn. unfold get_rosdeps, is_workspace_volume. rewrite Hws.
  assert (Hbad : processable f = false) by (unfold processable; by rewrite Hf, Hn).
  destruct (parse_loop_aborts _ ∅ ∅ [] p f Hin Hbad) as (out & e & ->).
  by exists e.
Qed.

Lemma nameless_manifest_aborts_witness :
  (isdir nameless_sibling = true
   ∧ ("/ws/pkg_bad/package.xml", nameless_manifest)
     ∈ package_xmls nameless_sibling "/ws"
   ∧ ET_parse nameless_manifest = Parsed nameless_root
   ∧ find "name" nameless_root = None)
  ∧ ∃ e, (get_rosdeps nameless_sibling "/ws").2 = Raise e.
Proof.
  assert (Hin : ("/ws/pkg_bad/package.xml", nameless_manifest)
                ∈ package_xmls nameless_sibling "/ws")
    by (vm_compute; right; left).
  split; [repeat split; done|].
  apply (nameless_manifest_aborts nameless_sibling "/ws"
           "/ws/pkg_bad/package.xml" nameless_manifest nameless_root);
    done.
Defined.

(** On that workspace the exception is the [AttributeError] of
    [root.find('name').text], and the valid sibling is lost with it. *)
Example nameless_sibling_run :
  get_rosdeps nameless_sibling "/ws" = ([], Raise AttributeError).
Proof. vm_compute. reflexivity. Qed.

(** C7.  A dependency element whose text holds only blanks passes the
    test [if dep.text] and is trimmed afterwards: the empty string
    enters the set of dependencies and the returned list. *)
Theorem blank_dependency_kept :
  "" ∈ add_deps (Element "package" None
                   [Element "name" (Some "pkg") [];
                    Element "depend" (Some "   ") []]) ∅
  ∧ get_rosdeps blank_dependency "/ws" = ([], Ok [""]).
Proof.
  split; [|vm_compute; reflexivity].
  apply add_deps_spec. right.
  exists (Element "depend" (Some "   ") []), "   ".
  split; [by right; left|]. split; [by left|]. done.
Qed.

(** C10.  The walker sets the package flag of a directory from
    [os.path.exists], which holds as well when the entry [package.xml]
    is a directory; the resolver only collects entries that [os.walk]
    lists as files; and in the workspace whose [pkg/package.xml] is a
    directory the packages-only selection yields [pkg/main.cpp] while
    the resolver finds no manifest and returns the empty list. *)
Theorem directory_manifest_marks_package :
  (∀ es c, entry "package.xml" es = Some c → isdir c = true →
           exists_in "package.xml" es = true)
  ∧ (∀ es path only, Py.basename path ≠ ".git" →
       walk_dir es path only false
       = EvListdir path ::
         flat_map (fun '(basename, c) =>
                     get_files_from_path c (Py.join path basename) only
                       (exists_in "package.xml" es)) es)
  ∧ (∀ ws dir p f, (p, f) ∈ package_xmls ws dir → isdir f = false)
  ∧ (yielded (get_files_from_path dir_manifest "/ws" true false)).*1
    = ["/ws/pkg/main.cpp"]
  ∧ package_xmls dir_manifest "/ws" = []
  ∧ get_rosdeps dir_manifest "/ws" = ([], Ok []).
Proof.
  split; [|split; [|split; [|repeat split; vm_compute; reflexivity]]].
  - intros es c Hc Hdir. unfold exists_in. rewrite Hc.
    apply bool_decide_eq_true. unfold isdir in Hdir.
    destruct (resolve c); [by eexists|done].
  - intros es path only Hg. unfold walk_dir.
    by rewrite bool_decide_eq_false_2.
  - apply package_xmls_files.
Qed.

Lemma directory_manifest_marks_package_witness :
  (entry "package.xml" [("package.xml", Dir []); ("main.cpp", source "int main;")]
   = Some (Dir []) ∧ isdir (Dir []) = true)
  ∧ exists_in "package.xml"
      [("package.xml", Dir []); ("main.cpp", source "int main;")] = true.
Proof.
  split; [split; reflexivity|].
  apply (proj1 directory_manifest_marks_package _ (Dir [])); reflexivity.
Defined.

(** ** Malformed manifests *)

Section malformed_manifests.

Lemma resolve_without n :
  resolve (without_malformed n) = without_malformed <$> resolve n.
Proof. induction n as [d|es _|t|t n IH] using node_ind'; simpl; done. Qed.

Lemma isdir_without n : isdir (without_malformed n) = isdir n.
Proof.
  unfold isdir. rewrite resolve_without.
  by destruct (resolve n) as [[d|es|t [o|]]|].
Qed.

Lemma without_nondir n : isdir n = false → without_malformed n = n.
Proof.
  unfold isdir.
  induction n as [d|es _|t|t n IH] using node_ind'; simpl; try done.
  intros H. by rewrite (IH H).
Qed.

Lemma malformed_nondir f : malformed f = true → isdir f = false.
Proof.
  unfold malformed, ET_parse, isdir.
  by destruct (resolve f) as [[[|c [x|]]|es|t o]|].
Qed.

Lemma entry_absent x es : x ∉ es.*1 → entry x es = None.
Proof.
  induction es as [|[y c] es IH]; simpl; [done|].
  intros [Hy Hes]%not_elem_of_cons.
  rewrite bool_decide_eq_false_2 by done. by apply IH.
Qed.

Lemma walk_files_names es : (walk_files es).*1 ⊆ es.*1.
Proof.
  intros x ([y c] & -> & [_ Hin]%list_elem_of_filter)%list_elem_of_fmap.
  apply list_elem_of_fmap. by exists (y, c).
Qed.

Lemma prune_entries_names es :
  (prune_entries without_malformed es).*1 ⊆ es.*1.
Proof.
  induction es as [|[y c] es IH]; simpl; [done|].
  destruct (bool_decide (y = "package.xml") && malformed c); simpl.
  - intros x Hx. right. by apply IH.
  - intros x [->|Hx]%elem_of_cons; [by left|right; by apply IH].
Qed.

(** The manifest of one directory, before and after pruning. *)
Lemma pruned_manifest es :
  NoDup es.*1 →
  entry "package.xml" (walk_files (prune_entries without_malformed es))
  = match entry "package.xml" (walk_files es) with
    | Some f => if malformed f then None else Some f
    | None => None
    end.
Proof.
  unfold walk_files.
  induction es as [|[y c] es IH]; [done|].
  intros [Hy Hnd]%NoDup_cons. simpl prune_entries. simpl in Hy.
  destruct (decide (y = "package.xml")) as [->|Hne].
  - assert (Hnone : entry "package.xml" (walk_files es) = None).
    { apply entry_absent. intros H. by apply Hy, walk_files_names. }
    assert (Hnone' : entry "package.xml"
              (walk_files (prune_entries without_malformed es)) = None).
    { apply entry_absent. intros H.
      by apply Hy, prune_entries_names, walk_files_names. }
    unfold walk_files in Hnone, Hnone'.
    rewrite bool_decide_eq_true_2 by done. simpl.
    destruct (malformed c) eqn:Hm.
    + rewrite Hnone', filter_cons_True by (by apply malformed_nondir).
      simpl. by rewrite Hm.
    + destruct (isdir c) eqn:Hdir.
      * rewrite !filter_cons_False; simpl;
          rewrite ?isdir_without, ?Hdir; try done.
        by rewrite Hnone, Hnone'.
      * rewrite (without_nondir c Hdir), !filter_cons_True by done.
        simpl. by rewrite Hm.
  - rewrite bool_decide_eq_false_2 by done. simpl.
    destruct (isdir c) eqn:Hdir.
    + rewrite !filter_cons_False; simpl;
        rewrite ?isdir_without, ?Hdir; try done. by apply IH.
    + rewrite !filter_cons_True; simpl;
        rewrite ?isdir_without, ?Hdir; try done.
      rewrite bool_decide_eq_false_2 by done. by apply IH.
Qed.

Lemma os_walk_eq es top :
  os_walk (Dir es) top = (top, walk_dirs es, walk_files es) :: sub_walks top es.
Proof. reflexivity. Qed.

Lemma package_xmls_of_cons top ds fs walk :
  package_xmls_of ((top, ds, fs) :: walk)
  = match entry "package.xml" fs with
    | Some f => [(Py.join top "package.xml", f)]
    | None => []
    end ++ package_xmls_of walk.
Proof. simpl. by destruct (entry "package.xml" fs). Qed.

Lemma pruned_package_xmls n : wf_node n = true → ∀ top,
  package_xmls_of (os_walk (without_malformed n) top)
  = filter (λ m, malformed m.2 = false) (package_xmls_of (os_walk n top)).
Proof.
  induction n as [d|es IH|t|t n _] using node_ind'; intros Hwf top;
    try done.
  apply wf_dir in Hwf as [Hnd Hall].
  change (without_malformed (Dir es))
    with (Dir (prune_entries without_malformed es)).
  rewrite !os_walk_eq, !package_xmls_of_cons, filter_app.
  rewrite (pruned_manifest es Hnd). f_equal.
  - destruct (entry "package.xml" (walk_files es)) as [f|]; [|done].
    destruct (malformed f) eqn:Hm.
    + by rewrite filter_cons_False by (simpl; congruence).
    + by rewrite filter_cons_True by done.
  - clear Hnd. unfold sub_walks.
    induction es as [|[y c] es IHes]; [done|].
    apply Forall_cons in IH as [IHc IH]. apply Forall_cons in Hall as [[_ Hc] Hall].
    simpl in IHc, Hc. simpl prune_entries.
    destruct (bool_decide (y = "package.xml") && malformed c) eqn:Hdrop.
    + apply andb_true_iff in Hdrop as [_ Hm%malformed_nondir].
      rewrite (IHes IH Hall). simpl.
      destruct c as [d|es'|t o]; try done.
    + simpl. rewrite !package_xmls_of_app, filter_app, (IHes IH Hall).
      f_equal. destruct c as [d|es'|t [o|]]; try done.
      by apply IHc.
Qed.

Lemma package_xmls_without ws dir :
  wf_node ws = true →
  package_xmls (without_malformed ws) dir
  = filter (λ m, malformed m.2 = false) (package_xmls ws dir).
Proof.
  intros Hwf. unfold package_xmls. rewrite resolve_without.
  destruct (resolve ws) as [[d|es|t [o|]]|] eqn:E; try done.
  apply (pruned_package_xmls (Dir es)). by apply (wf_resolve ws).
Qed.

Lemma parse_loop_skips xmls : ∀ deps src out out',
  (parse_loop xmls deps src out).2
  = (parse_loop (filter (λ m, malformed m.2 = false) xmls) deps src out').2.
Proof.
  induction xmls as [|[p f] xmls IH]; intros deps src out out'; [done|].
  destruct (malformed f) eqn:Hm.
  - rewrite filter_cons_False by (simpl; congruence). simpl.
    unfold malformed in Hm. destruct (ET_parse f); first [done|apply IH].
  - rewrite filter_cons_True by done. simpl.
    unfold malformed in Hm. destruct (ET_parse f) as [| |root]; try done.
    destruct (find "name" root) as [name|]; [|done].
    destruct (el_text name); first [done|apply IH].
Qed.

Lemma parse_loop_ok_out xmls : ∀ deps src out out' r,
  parse_loop xmls deps src out = (out', Ok r) →
  out' = out ++ map (λ m, parse_warning m.1)
                  (filter (λ m, malformed m.2 = true) xmls).
Proof.
  induction xmls as [|[p f] xmls IH]; intros deps src out out' r.
  - intros [= <- _]. by rewrite app_nil_r.
  - simpl parse_loop. unfold malformed at 1.
    destruct (ET_parse f) as [| |root] eqn:Hf.
    + rewrite filter_cons_True by (simpl; unfold malformed; by rewrite Hf).
      intros ->%IH. simpl. by rewrite <-app_assoc.
    + done.
    + rewrite filter_cons_False by (simpl; unfold malformed; by rewrite Hf).
      destruct (find "name" root) as [name|]; [|done].
      destruct (el_text name); [|done]. apply IH.
Qed.

End malformed_manifests.

(** C6.  Malformed manifests are skipped: the resolver ends on a
    workspace as it does on the same workspace with every malformed
    [package.xml] removed, so such a manifest adds no name and no
    dependency and takes nothing from the others; when the resolver
    returns, it has printed one diagnostic naming each malformed
    manifest; and it does return on a workspace directory whenever each
    manifest that is well-formed XML has a [name] element with text. *)
Theorem malformed_manifests_skipped ws dir :
  wf_node ws = true →
  (get_rosdeps ws dir).2 = (get_rosdeps (without_malformed ws) dir).2
  ∧ (∀ l, (get_rosdeps ws dir).2 = Ok l →
       (get_rosdeps ws dir).1
       = map (λ m, parse_warning m.1)
           (filter (λ m, malformed m.2 = true) (package_xmls ws dir)))
  ∧ (isdir ws = true →
     Forall (λ m, malformed m.2 = false → processable m.2 = true)
       (package_xmls ws dir) →
     ∃ l, (get_rosdeps ws dir).2 = Ok l).
Proof.
  intros Hwf. unfold get_rosdeps, is_workspace_volume.
  rewrite isdir_without, (package_xmls_without ws dir Hwf).
  destruct (isdir ws); [|by repeat split].
  pose proof (parse_loop_skips (package_xmls ws dir) ∅ ∅ [] []) as Hskip.
  destruct (parse_loop (package_xmls ws dir) ∅ ∅ [])
    as [out [[deps src]|e]] eqn:Hloop;
    destruct (parse_loop (filter _ (package_xmls ws dir)) ∅ ∅ [])
      as [out' [[deps' src']|e']] eqn:Hloop'; simpl in Hskip; try done.
  - injection Hskip as <- <-. split; [done|]. split.
    + intros l _. simpl. by apply (parse_loop_ok_out _ _ _ _ _ _ Hloop).
    + intros _ _. by eexists.
  - injection Hskip as <-. split; [done|]. split; [done|].
    intros _ Hall. exfalso.
    assert (Hall' : Forall (λ m, processable m.2 = true) (package_xmls ws dir)).
    { eapply Forall_impl; [exact Hall|]. intros [p f] Hf. simpl in *.
      destruct (malformed f) eqn:Hm; [|by apply Hf].
      unfold processable. unfold malformed in Hm. by destruct (ET_parse f). }
    destruct (parse_loop_completes _ ∅ ∅ [] Hall') as (o & r & Hr).
    congruence.
Qed.

Lemma malformed_manifests_skipped_witness :
  wf_node malformed_sibling = true
  ∧ get_rosdeps malformed_sibling "/ws"
    = (["Warning: Could not parse /ws/pkg_bad/package.xml"], Ok ["libfoo"])
  ∧ (get_rosdeps malformed_sibling "/ws").2
    = (get_rosdeps (without_malformed malformed_sibling) "/ws").2.
Proof.
  split; [reflexivity|]. split; [vm_compute; reflexivity|].
  apply (malformed_manifests_skipped malformed_sibling "/ws"). reflexivity.
Defined.

(** * Further properties of the walker *)

Section walker_modes.

Lemma flat_map_ext_Forall {A B} (f g : A → list B) (l : list A) :
  Forall (λ a, f a = g a) l → flat_map f l = flat_map g l.
Proof. induction 1 as [|a l E _ IH]; simpl; [done|by rewrite E, IH]. Qed.

Lemma link_events t n path only pk :
  isdir n = true →
  get_files_from_path (Link t (Some n)) path only pk
  = get_files_from_path n path only pk.
Proof.
  unfold isdir. intros H. rewrite !get_files_from_path_eq. simpl resolve.
  by destruct (resolve n) as [[d|es|t' o]|].
Qed.

Lemma link_leaf t o path only pk :
  isdir (Link t o) = false →
  get_files_from_path (Link t o) path only pk
  = yield_leaf path (Link t o) only pk.
Proof. intros H. by apply walk_at_leaf. Qed.

Lemma yield_leaf_in_package path leaf :
  yield_leaf path leaf true true = yield_leaf path leaf false true.
Proof. reflexivity. Qed.

Lemma mode_irrelevant_in_package n : ∀ path,
  get_files_from_path n path true true = get_files_from_path n path false true.
Proof.
  induction n as [d|es IH|t|t n IH] using node_ind'; intros path;
    try reflexivity.
  - rewrite !get_files_from_path_eq. simpl. unfold walk_dir.
    case_bool_decide; [done|]. simpl. f_equal.
    apply flat_map_ext_Forall. eapply Forall_impl; [exact IH|].
    intros [x c] Hc. apply Hc.
  - destruct (isdir n) eqn:Hn.
    + by rewrite !link_events.
    + by rewrite !link_leaf.
Qed.

Lemma listed_mode_independent n : ∀ path only pk only' pk',
  listed (get_files_from_path n path only pk)
  = listed (get_files_from_path n path only' pk').
Proof.
  assert (Hleaf : ∀ path m only pk, listed (yield_leaf path m only pk) = []).
  { intros path m [] []; reflexivity. }
  induction n as [d|es IH|t|t n IH] using node_ind';
    intros path only pk only' pk'.
  - rewrite !get_files_from_path_eq. simpl. by rewrite !Hleaf.
  - rewrite !get_files_from_path_eq. simpl. unfold walk_dir.
    case_bool_decide; [done|]. simpl. f_equal.
    generalize (if negb pk then exists_in "package.xml" es else pk).
    generalize (if negb pk' then exists_in "package.xml" es else pk').
    intros b' b.
    induction IH as [|[x c] es Hc _ IHes]; simpl; [done|].
    rewrite !listed_app. f_equal; [apply Hc|apply IHes].
  - rewrite !get_files_from_path_eq. simpl. by rewrite !Hleaf.
  - destruct (isdir n) eqn:Hn.
    + rewrite !link_events by done. apply IH.
    + rewrite !link_leaf by done. by rewrite !Hleaf.
Qed.

Lemma yielded_mode_sublist n : ∀ path pk,
  sublist (yielded (get_files_from_path n path true pk))
          (yielded (get_files_from_path n path false pk)).
Proof.
  assert (Hleaf : ∀ path m pk,
            sublist (yielded (yield_leaf path m true pk))
                    (yielded (yield_leaf path m false pk))).
  { intros path m []; simpl; [done|]. by apply sublist_nil_l. }
  induction n as [d|es IH|t|t n IH] using node_ind'; intros path pk.
  - rewrite !get_files_from_path_eq. apply Hleaf.
  - rewrite !get_files_from_path_eq. simpl. unfold walk_dir.
    case_bool_decide; [done|]. simpl.
    generalize (if negb pk then exists_in "package.xml" es else pk).
    intros b.
    induction IH as [|[x c] es Hc _ IHes]; simpl; [done|].
    rewrite !yielded_app. apply sublist_app; [apply Hc|apply IHes].
  - rewrite !get_files_from_path_eq. apply Hleaf.
  - destruct (isdir n) eqn:Hn.
    + rewrite !link_events by done. apply IH.
    + rewrite !link_leaf by done. apply Hleaf.
Qed.

End walker_modes.

(** X1.  When the workspace directory itself holds an existing entry
    [package.xml], the packages-only walk does exactly what the walk over
    all files does, and so does the dictionary built from it. *)
Theorem package_root_selects_all ws dir es :
  resolve ws = Some (Dir es) → exists_in "package.xml" es = true →
  get_files_from_path ws dir true false = get_files_from_path ws dir false false
  ∧ generate_ws_files ws dir true = generate_ws_files ws dir false.
Proof.
  intros Hws Hpkg.
  assert (E : get_files_from_path ws dir true false
              = get_files_from_path ws dir false false).
  { rewrite !get_files_from_path_eq, Hws. unfold walk_dir.
    case_bool_decide; [done|]. simpl. rewrite Hpkg. f_equal.
    apply flat_map_ext_Forall, Forall_forall. intros [x c] _.
    apply mode_irrelevant_in_package. }
  split; [done|]. unfold generate_ws_files. by rewrite E.
Qed.

Lemma package_root_selects_all_witness :
  (resolve git_in_package
   = Some (Dir [("package.xml", manifest "pkg" []);
                (".git", Dir [("config", source "[core]")]);
                ("main.cpp", source "int main;")])
   ∧ exists_in "package.xml"
       [("package.xml", manifest "pkg" []);
        (".git", Dir [("config", source "[core]")]);
        ("main.cpp", source "int main;")] = true)
  ∧ generate_ws_files git_in_package "/ws" true
    = generate_ws_files git_in_package "/ws" false.
Proof.
  split; [split; reflexivity|].
  apply (package_root_selects_all git_in_package "/ws" _ eq_refl eq_refl).
Defined.

(** X2.  The filter mode does not change which directories are listed:
    packages-only mode lists every directory the other mode lists, in
    the same order, and what it yields is a sublist of what the other
    mode yields. *)
Theorem packages_only_walks_everything ws dir :
  listed (get_files_from_path ws dir true false)
  = listed (get_files_from_path ws dir false false)
  ∧ sublist (yielded (get_files_from_path ws dir true false))
            (yielded (get_files_from_path ws dir false false)).
Proof.
  split; [apply listed_mode_independent|apply yielded_mode_sublist].
Qed.

Section walker_paths.




End walker_paths.



(** X4.  A workspace directory in which no directory holds an existing
    entry [package.xml] gives an empty build context: packages-only mode
    yields nothing, [get_files] returns the empty dictionary and prints
    nothing, also for the symbolic links it passes. *)
Theorem no_package_no_files ws dir :
  wf_node ws = true → isdir ws = true →
  (∀ ns, in_package ws ns = false) →
  yielded (get_files_from_path ws dir true false) = []
  ∧ get_files ws dir = ([], Ok ∅).
Proof.
  intros Hwf Hws Hno.
  assert (E : yielded (get_files_from_path ws dir true false) = []).
  { destruct (yielded (get_files_from_path ws dir true false))
      as [|[q leaf] ys] eqn:Hys; [done|].
    assert (Hin : (q, leaf) ∈ yielded (get_files_from_path ws dir true false))
      by (rewrite Hys; by left).
    apply (yields_sound _ Hwf) in Hin as (ns & _ & _ & _ & _ & _ & Hp).
    specialize (Hp eq_refl). by rewrite (Hno ns) in Hp. }
  split; [done|].
  unfold get_files, is_workspace_volume, generate_ws_files.
  by rewrite Hws, E.
Qed.

Lemma in_package_stray_link ns : in_package stray_link ns = false.
Proof.
  destruct ns as [|x ns]; [done|]. simpl.
  case_bool_decide; [|done]. by destruct ns.
Qed.

Lemma no_package_no_files_witness :
  (wf_node stray_link = true ∧ isdir stray_link = true
   ∧ ∀ ns, in_package stray_link ns = false)
  ∧ get_files stray_link "/ws" = ([], Ok ∅).
Proof.
  split; [repeat split; [reflexivity..|apply in_package_stray_link]|].
  apply (no_package_no_files stray_link "/ws");
    [reflexivity..|apply in_package_stray_link].
Defined.

(** * Further properties of the dictionary keys *)

Section keys.

Lemma prefix_app (s t : string) : String.prefix s (s +:+ t) = true.
Proof.
  induction s as [|a s IH]; [by destruct t|].
  rewrite app_cons_str. simpl. by destruct (ascii_dec a a).
Qed.

Lemma replace_from_skip old new a : ∀ rest,
  Py.replace_from old new (String.length a) (a +:+ rest)
  = Py.replace_from old new 0 rest.
Proof.
  induction a as [|x a IH]; intros rest; [done|].
  rewrite app_cons_str. simpl. apply IH.
Qed.

Lemma replace_from_absent old new s :
  occurs old s = false → Py.replace_from old new 0 s = s.
Proof.
  induction s as [|a s IH]; [done|]. simpl.
  intros [Hp Hs]%orb_false_iff. rewrite Hp. by rewrite (IH Hs).
Qed.

Lemma slice_from_app a rest : slice_from (String.length a) (a +:+ rest) = rest.
Proof.
  induction a as [|x a IH]; [by destruct rest|].
  rewrite app_cons_str. simpl. apply IH.
Qed.

Lemma replace_from_head old new rest :
  old ≠ "" → occurs old rest = false →
  Py.replace_from old new 0 (old +:+ rest) = new +:+ rest.
Proof.
  intros Hold Hrest. destruct old as [|a d]; [done|].
  change (String a d +:+ rest) with (String a (d +:+ rest)).
  cbn [Py.replace_from].
  assert (Py.startswith (String a d) (String a (d +:+ rest)) = true) as ->
    by apply (prefix_app (String a d) rest).
  f_equal.
  replace (String.length (String a d) - 1) with (String.length d)
    by (simpl; lia).
  by rewrite replace_from_skip, replace_from_absent.
Qed.

Lemma virtual_path_prefix dir rest :
  dir ≠ "" → occurs dir rest = false →
  virtual_path dir (dir +:+ rest) = ("ros_ws_src" +:+ "/") +:+ rest.
Proof.
  intros Hdir Hrest. unfold virtual_path, Py.replace.
  rewrite bool_decide_eq_false_2 by done.
  by apply replace_from_head.
Qed.

Lemma loop_other_key dir ys : ∀ m out out' m' k,
  ws_files_loop dir ys m out = (out', Ok m') →
  k ∉ map (key_of dir) (nonlinks ys) → m' !! k = m !! k.
Proof.
  unfold nonlinks.
  induction ys as [|[q leaf] ys IH]; intros m out out' m' k.
  - by intros [= _ <-].
  - destruct leaf as [[|c x]|es|t d]; try done.
    + rewrite filter_cons_True by done. simpl.
      intros Hl [Hk Hks]%not_elem_of_cons.
      rewrite (IH _ _ _ _ _ Hl Hks). by rewrite lookup_insert_ne.
    + rewrite filter_cons_False by done. simpl. apply IH.
Qed.

Lemma loop_unique_keys dir ys : ∀ m out out' m',
  ws_files_loop dir ys m out = (out', Ok m') →
  NoDup (map (key_of dir) (nonlinks ys)) →
  ∀ q c x, (q, File (Readable c x)) ∈ ys → m' !! virtual_path dir q = Some c.
Proof.
  unfold nonlinks.
  induction ys as [|[q leaf] ys IH]; intros m out out' m'.
  - intros _ _ q c x Hin. by apply elem_of_nil in Hin.
  - destruct leaf as [[|c x]|es|t d]; try done.
    + rewrite filter_cons_True by done. simpl.
      intros Hl [Hfresh Hnd]%NoDup_cons q' c' x' [[= -> -> ->]|Hin]%elem_of_cons.
      * rewrite (loop_other_key _ _ _ _ _ _ (virtual_path dir q) Hl Hfresh).
        by rewrite lookup_insert_eq.
      * by apply (IH _ _ _ _ Hl Hnd q' c' x').
    + rewrite filter_cons_False by done. simpl.
      intros Hl Hnd q' c' x' [[=]|Hin]%elem_of_cons.
      by apply (IH _ _ _ _ Hl Hnd q' c' x').
Qed.

Lemma loop_size dir ys : ∀ m out out' m',
  ws_files_loop dir ys m out = (out', Ok m') →
  NoDup (map (key_of dir) (nonlinks ys)) →
  (∀ k, k ∈ map (key_of dir) (nonlinks ys) → m !! k = None) →
  size m' = size m + length (nonlinks ys).
Proof.
  unfold nonlinks.
  induction ys as [|[q leaf] ys IH]; intros m out out' m'.
  - intros [= _ <-] _ _. simpl. lia.
  - destruct leaf as [[|c x]|es|t d]; try done.
    + rewrite filter_cons_True by done. simpl.
      intros Hl [Hfresh Hnd]%NoDup_cons Hm.
      rewrite (IH _ _ _ _ Hl Hnd).
      * rewrite map_size_insert_None; [lia|]. apply Hm. by left.
      * intros k Hk. rewrite lookup_insert_ne; [apply Hm; by right|].
        intros <-. by apply Hfresh.
    + rewrite filter_cons_False by done. simpl. apply IH.
Qed.

End keys.

(** X5.  For a non-empty root that does not occur again in the rest of
    a path, the key is the virtual root followed by that rest unchanged,
    which is what replacing the leading occurrence alone gives; two such
    paths with the same key are the same path. *)
Theorem key_of_plain_path dir :
  dir ≠ "" →
  (∀ rest, occurs dir rest = false →
     virtual_path dir (dir +:+ rest) = ("ros_ws_src" +:+ "/") +:+ rest
     ∧ virtual_path dir (dir +:+ rest) = leading_replaced dir (dir +:+ rest))
  ∧ (∀ rest rest', occurs dir rest = false → occurs dir rest' = false →
       virtual_path dir (dir +:+ rest) = virtual_path dir (dir +:+ rest') →
       rest = rest').
Proof.
  intros Hdir. split.
  - intros rest Hrest. split; [by apply virtual_path_prefix|].
    rewrite (virtual_path_prefix dir rest Hdir Hrest).
    unfold leading_replaced, Py.startswith.
    by rewrite prefix_app, slice_from_app.
  - intros rest rest' Hr Hr'.
    rewrite (virtual_path_prefix dir rest Hdir Hr),
      (virtual_path_prefix dir rest' Hdir Hr').
    by intros ?%String.app_inj.
Qed.

Lemma key_of_plain_path_witness :
  ("/ws" ≠ "" ∧ occurs "/ws" "/pkg/src/main.cpp" = false)
  ∧ virtual_path "/ws" ("/ws" +:+ "/pkg/src/main.cpp")
    = ("ros_ws_src" +:+ "/") +:+ "/pkg/src/main.cpp".
Proof.
  split; [split; done|].
  apply (proj1 (key_of_plain_path "/ws" ltac:(done)) "/pkg/src/main.cpp").
  reflexivity.
Defined.

(** X6.  When the keys of the yielded paths that are not links are
    pairwise distinct and the walk returns, the dictionary holds each
    yielded file under its key with that file's contents, and has as
    many entries as there are such paths. *)
Theorem distinct_keys_keep_contents ws dir only out m :
  generate_ws_files ws dir only = (out, Ok m) →
  NoDup (map (key_of dir)
           (nonlinks (yielded (get_files_from_path ws dir only false)))) →
  (∀ q c x, (q, File (Readable c x))
              ∈ yielded (get_files_from_path ws dir only false) →
            m !! virtual_path dir q = Some c)
  ∧ size m = length (nonlinks (yielded (get_files_from_path ws dir only false))).
Proof.
  unfold generate_ws_files. intros Hgen Hnd. split.
  - by apply (loop_unique_keys _ _ _ _ _ _ Hgen).
  - rewrite (loop_size _ _ _ _ _ _ Hgen Hnd); [by rewrite map_size_empty|].
    intros k _. apply lookup_empty.
Qed.

Lemma distinct_keys_keep_contents_witness :
  (generate_ws_files linked_file "/ws" true
   = (["Warning: Could not copy symlink /ws/notes -> /tmp/notes.txt"],
      Ok (<["ros_ws_src//main.cpp" := Text "int main;"]>
            (<["ros_ws_src//package.xml" := Text ""]> ∅)))
   ∧ NoDup (map (key_of "/ws")
              (nonlinks (yielded (get_files_from_path linked_file "/ws" true false)))))
  ∧ size (<["ros_ws_src//main.cpp" := Text "int main;"]>
            (<["ros_ws_src//package.xml" := Text ""]> (∅ : gmap string contents)))
    = length (nonlinks (yielded (get_files_from_path linked_file "/ws" true false))).
Proof.
  assert (E : generate_ws_files linked_file "/ws" true
   = (["Warning: Could not copy symlink /ws/notes -> /tmp/notes.txt"],
      Ok (<["ros_ws_src//main.cpp" := Text "int main;"]>
            (<["ros_ws_src//package.xml" := Text ""]> ∅))))
    by (vm_compute; reflexivity).
  assert (Hnd : NoDup (map (key_of "/ws")
              (nonlinks (yielded (get_files_from_path linked_file "/ws" true false))))).
  { vm_compute. repeat constructor.
    - intros H. repeat (apply elem_of_cons in H; destruct H as [H|H]; [discriminate H|]).
      by apply elem_of_nil in H.
    - by intros ?%elem_of_nil. }
  split; [by split|].
  apply (distinct_keys_keep_contents linked_file "/ws" true _ _ E Hnd).
Defined.

(** * Further properties of the resolver *)

Section resolver_outcomes.



Lemma parse_loop_ok_processable xmls : ∀ deps src out out' r,
  parse_loop xmls deps src out = (out', Ok r) →
  Forall (λ m, processable m.2 = true) xmls.
Proof.
  intros deps src out out' r Hok. apply Forall_forall. intros [p f] Hin.
  destruct (processable f) eqn:Hf; [done|].
  destruct (parse_loop_aborts _ deps src out p f Hin Hf) as (o & e & He).
  congruence.
Qed.

Lemma rstrip_idem s : Py.rstrip (Py.rstrip s) = Py.rstrip s.
Proof.
  induction s as [|a s IH]; [done|]. simpl.
  destruct (Py.rstrip s) as [|b r] eqn:E.
  - destruct (Py.is_space a) eqn:Ha; [done|]. simpl. by rewrite Ha.
  - simpl in *. by rewrite IH.
Qed.

Lemma lstrip_head s :
  Py.lstrip s = "" ∨ ∃ a r, Py.lstrip s = String a r ∧ Py.is_space a = false.
Proof.
  induction s as [|a s IH]; [by left|]. simpl.
  destruct (Py.is_space a) eqn:Ha; [done|]. right. by exists a, s.
Qed.

Lemma rstrip_head a r :
  Py.is_space a = false → ∃ r', Py.rstrip (String a r) = String a r'.
Proof.
  intros Ha. simpl. destruct (Py.rstrip r); [|by eexists].
  rewrite Ha. by eexists.
Qed.

Lemma strip_idem s : Py.strip (Py.strip s) = Py.strip s.
Proof.
  unfold Py.strip. destruct (lstrip_head s) as [->|(a & r & -> & Ha)]; [done|].
  destruct (rstrip_head a r Ha) as [r' E].
  pose proof (rstrip_idem (String a r)) as Hi.
  rewrite E in Hi |- *. cbn [Py.lstrip]. by rewrite Ha.
Qed.

End resolver_outcomes.

(** X7.  The resolver returns a list exactly on a workspace directory
    each of whose collected manifests is malformed XML or parses with a
    first [name] element that has text; every unreadable or dangling
    [package.xml], and every manifest without such a name, makes it
    raise. *)
Theorem rosdeps_returns_iff ws dir :
  (∃ l, (get_rosdeps ws dir).2 = Ok l)
  ↔ isdir ws = true
    ∧ Forall (λ m, processable m.2 = true) (package_xmls ws dir).
Proof.
  unfold get_rosdeps, is_workspace_volume. split.
  - intros [l Hl]. destruct (isdir ws); [|done]. split; [done|].
    destruct (parse_loop (package_xmls ws dir) ∅ ∅ [])
      as [out [r|e]] eqn:Hloop; [|simpl in Hl; done].
    by apply (parse_loop_ok_processable _ _ _ _ _ _ Hloop).
  - intros [-> Hall].
    destruct (parse_loop_completes _ ∅ ∅ [] Hall) as (out & [deps src] & ->).
    by eexists.
Qed.



(** X9.  Every name the resolver returns is trimmed: stripping it again
    changes nothing. *)
Theorem returned_names_trimmed ws dir l x :
  (get_rosdeps ws dir).2 = Ok l → x ∈ l → Py.strip x = x.
Proof.
  unfold get_rosdeps. destruct (is_workspace_volume ws); [|done].
  destruct (parse_loop (package_xmls ws dir) ∅ ∅ [])
    as [out [[deps src]|e]] eqn:Hloop; [|done].
  simpl. intros [= <-] Hx.
  apply (sorted_elements (deps ∖ src)) in Hx.
  apply elem_of_difference in Hx as [Hx _].
  apply (parse_loop_ok _ _ _ _ _ _ _ Hloop) in Hx
    as [?%not_elem_of_empty|(p & f & root & _ & _ & dep & t & _ & _ & _ & _ & ->)];
    [done|].
  apply strip_idem.
Qed.

Lemma returned_names_trimmed_witness :
  ((get_rosdeps two_packages "/ws").2 = Ok ["libbar"; "libfoo"]
   ∧ "libbar" ∈ ["libbar"; "libfoo"])
  ∧ Py.strip "libbar" = "libbar".
Proof.
  assert (E : (get_rosdeps two_packages "/ws").2 = Ok ["libbar"; "libfoo"])
    by (vm_compute; reflexivity).
  split; [split; [exact E|by left]|].
  apply (returned_names_trimmed two_packages "/ws" _ "libbar" E). by left.
Defined.

Lemma rosdeps_returns_iff_witness :
  (isdir two_packages = true
   ∧ Forall (λ m, processable m.2 = true) (package_xmls two_packages "/ws"))
  ∧ ∃ l, (get_rosdeps two_packages "/ws").2 = Ok l.
Proof.
  assert (H : isdir two_packages = true
   ∧ Forall (λ m, processable m.2 = true) (package_xmls two_packages "/ws")).
  { split; [reflexivity|]. vm_compute. repeat constructor. }
  split; [exact H|].
  apply (proj2 (rosdeps_returns_iff two_packages "/ws") H).
Defined.

(** * The walker and the resolver together *)

Section together.








End together.



(** * The home directory *)

(** X11.  The home directory is always an absolute path: [/root] without
    the user flag; with it, [/home/] followed by the user name, unless
    that name starts with a separator, in which case the name alone is
    returned. *)
Theorem home_dir_absolute user user_name :
  Py.starts_with "/" (get_home_dir user user_name) = true
  ∧ (user = false → get_home_dir user user_name = "/root")
  ∧ (user = true → Py.starts_with "/" user_name = false →
     get_home_dir user user_name = "/home/" +:+ user_name)
  ∧ (user = true → Py.starts_with "/" user_name = true →
     get_home_dir user user_name = user_name).
Proof.
  unfold get_home_dir.
  change (Py.join "/" "home") with "/home".
  change (Py.join "/" "root") with "/root".
  destruct user; [|by repeat split].
  unfold Py.join. destruct (Py.starts_with "/" user_name) eqn:E.
  - by repeat split.
  - by repeat split.
Qed.

Lemma home_dir_absolute_witness :
  (true = true ∧ Py.starts_with "/" "alice" = false)
  ∧ get_home_dir true "alice" = "/home/" +:+ "alice".
Proof.
  split; [by split|].
  apply (proj1 (proj2 (proj2 (home_dir_absolute true "alice")))); reflexivity.
Defined.

(** * Further outcomes *)

Section outcomes.

Lemma loop_ok_readable dir ys : ∀ m out out' m',
  ws_files_loop dir ys m out = (out', Ok m') →
  Forall (λ y, islink y.2 = false → readable y.2 = true) ys.
Proof.
  induction ys as [|[q leaf] ys IH]; intros m out out' m'; simpl; [constructor|].
  destruct leaf as [[|c x]|es|t d]; try done; intros Hl;
    (constructor; [done|by apply (IH _ _ _ _ Hl)]).
Qed.

Lemma os_walk_nodes n : ∀ top top',
  (package_xmls_of (os_walk n top)).*2 = (package_xmls_of (os_walk n top')).*2.
Proof.
  induction n as [d|es IH|t|t n _] using node_ind'; intros top top'; try done.
  rewrite !os_walk_eq, !package_xmls_of_cons, !fmap_app. f_equal.
  - by destruct (entry "package.xml" (walk_files es)).
  - unfold sub_walks.
    induction IH as [|[x c] es Hc _ IHes]; [done|]. simpl.
    rewrite !package_xmls_of_app, !fmap_app. f_equal; [|apply IHes].
    destruct c as [d|es'|t o]; first [done|apply Hc].
Qed.

Lemma parse_loop_nodes xmls : ∀ xmls' deps src out out',
  xmls.*2 = xmls'.*2 →
  (parse_loop xmls deps src out).2 = (parse_loop xmls' deps src out').2.
Proof.
  induction xmls as [|[p f] xmls IH]; intros [|[p' f'] xmls'] deps src out out';
    try done.
  simpl. intros [= <- E].
  destruct (ET_parse f) as [| |root]; [by apply IH|done|].
  destruct (find "name" root) as [name|]; [|done].
  destruct (el_text name); [by apply IH|done].
Qed.

End outcomes.

(** X12.  What the resolver returns or raises depends on the snapshot
    alone, not on the path string of the workspace: that string only
    appears in the diagnostics. *)
Theorem rosdeps_path_independent ws dir dir' :
  (get_rosdeps ws dir).2 = (get_rosdeps ws dir').2.
Proof.
  unfold get_rosdeps. destruct (is_workspace_volume ws); [|done].
  assert (E : (parse_loop (package_xmls ws dir) ∅ ∅ []).2
              = (parse_loop (package_xmls ws dir') ∅ ∅ []).2).
  { apply parse_loop_nodes. unfold package_xmls.
    destruct (resolve ws) as [[d|es|t o]|]; try done. apply os_walk_nodes. }
  destruct (parse_loop (package_xmls ws dir) ∅ ∅ []) as [out [[deps src]|e]];
    destruct (parse_loop (package_xmls ws dir') ∅ ∅ []) as [out' [[deps' src']|e']];
    simpl in E; try done.
  - by injection E as -> ->.
  - by injection E as ->.
Qed.

(** X13.  [get_files] returns a dictionary exactly on a workspace
    directory in which every path the packages-only walk yields is a
    symbolic link or a readable regular file; otherwise it raises. *)
Theorem get_files_returns_iff ws dir :
  (∃ m, (get_files ws dir).2 = Ok m)
  ↔ isdir ws = true
    ∧ Forall (λ y, islink y.2 = false → readable y.2 = true)
        (yielded (get_files_from_path ws dir true false)).
Proof.
  unfold get_files, is_workspace_volume, generate_ws_files. split.
  - intros [m Hm]. destruct (isdir ws); [|done]. split; [done|].
    destruct (ws_files_loop dir _ ∅ []) as [out r] eqn:Hl.
    simpl in Hm. subst r. by apply (loop_ok_readable _ _ _ _ _ _ Hl).
  - intros [-> Hall]. by apply loop_completes.
Qed.

Lemma get_files_returns_iff_witness :
  (isdir linked_file = true
   ∧ Forall (λ y, islink y.2 = false → readable y.2 = true)
       (yielded (get_files_from_path linked_file "/ws" true false)))
  ∧ ∃ m, (get_files linked_file "/ws").2 = Ok m.
Proof.
  assert (H : isdir linked_file = true
   ∧ Forall (λ y, islink y.2 = false → readable y.2 = true)
       (yielded (get_files_from_path linked_file "/ws" true false))).
  { split; [reflexivity|]. vm_compute. repeat constructor; intros; done. }
  split; [exact H|].
  apply (proj2 (get_files_returns_iff linked_file "/ws") H).
Defined.
